(** * GenXL: the mapping ingestor and the spreadsheet renderer of [main.py]

    A shallow embedding of [parse_llm_json], [call_llm], [apply_cell_style]
    and [generate_excel], with the properties of the layout mapping they
    consume.

    Conventions.
    - A Python [str] is the list of the bytes of its UTF-8 encoding
      ([str := list ascii]); every operation of the source that looks at
      characters ([strip], [startswith], [find], [rfind], the two regular
      expressions) looks at ASCII characters or at white space, and both
      are recognised on the encoding.
    - Python integers are [Z]; [find] and [rfind] answer [-1] as in Python.
    - Exceptions are values of [exn]; a function that can raise returns a
      [result].
    - What lies outside [main.py] is a parameter or a model: the workbook
      library is the class [Openpyxl], the model behind the API and the
      files are fields of [World], and [json.loads] is the decoder of the
      module [json]. *)

From Stdlib Require Import ZArith Lia List Ascii String Bool.
From stdpp Require Import base decidable option list strings gmap.
Import ListNotations.

#[local] Open Scope string_scope.
#[local] Open Scope Z_scope.
#[local] Open Scope list_scope.

(** ** Python strings *)

Definition str := list ascii.

Definition py (s : string) : str := list_ascii_of_string s.
Coercion py : string >-> str.

Definition ord (c : ascii) : Z := Z.of_N (N_of_ascii c).
Definition chr (z : Z) : ascii := ascii_of_N (Z.to_N z).

Definition ascii_eqb (a b : ascii) : bool := Ascii.eqb a b.

Definition quote : ascii := chr 34.

(** Sample texts are written with ['] where the text has a double quote. *)
Definition dq (s : string) : str :=
  map (fun c => if ascii_eqb c "'" then quote else c) (py s).

Definition len {A} (l : list A) : Z := Z.of_nat (length l).

Module Text.

Definition bytes (l : list Z) : str := map chr l.

(** The white space of [str.isspace], each character by its UTF-8
    encoding: U+0009..U+000D, U+001C..U+0020, U+0085, U+00A0, U+1680,
    U+2000..U+200A, U+2028, U+2029, U+202F, U+205F, U+3000. *)
Definition whitespace : list str :=
  map (fun c => [chr c]) [9; 10; 11; 12; 13; 28; 29; 30; 31; 32]
  ++ map bytes
       [ [194; 133]; [194; 160]; [225; 154; 128];
         [226; 128; 128]; [226; 128; 129]; [226; 128; 130];
         [226; 128; 131]; [226; 128; 132]; [226; 128; 133];
         [226; 128; 134]; [226; 128; 135]; [226; 128; 136];
         [226; 128; 137]; [226; 128; 138]; [226; 128; 168];
         [226; 128; 169]; [226; 128; 175]; [226; 129; 159];
         [227; 128; 128] ].

(** [startswith p s]: [s.startswith(p)]. *)
Fixpoint startswith (p s : str) : bool :=
  match p, s with
  | [], _ => true
  | _ :: _, [] => false
  | a :: p', b :: s' => ascii_eqb a b && startswith p' s'
  end.

Definition endswith (p s : str) : bool := startswith (rev p) (rev s).

(** One step of stripping: the text after a leading white space
    character taken from [ws], when there is one. *)
Fixpoint eat (ws : list str) (s : str) : option str :=
  match ws with
  | [] => None
  | w :: ws' =>
      if startswith w s then Some (skipn (length w) s) else eat ws' s
  end.

(** [eat_all ws n s] removes leading white space, at most [n]
    characters of it. *)
Fixpoint eat_all (ws : list str) (n : nat) (s : str) : str :=
  match n with
  | O => s
  | S n' =>
      match eat ws s with
      | Some s' => eat_all ws n' s'
      | None => s
      end
  end.

Definition lstrip (s : str) : str := eat_all whitespace (length s) s.

Definition rstrip (s : str) : str :=
  rev (eat_all (map (@rev ascii) whitespace) (length s) (rev s)).

(** [s.strip()] *)
Definition strip (s : str) : str := rstrip (lstrip s).

Definition is_letter (c : ascii) : bool :=
  let n := ord c in
  ((97 <=? n) && (n <=? 122)) || ((65 <=? n) && (n <=? 90)).

Fixpoint drop_while (f : ascii -> bool) (s : str) : str :=
  match s with
  | [] => []
  | c :: s' => if f c then drop_while f s' else s
  end.

Definition fence : str := "```".

(** [re.sub] of the pattern "^```[a-zA-Z]*" by the empty string: without
    the MULTILINE flag the anchor matches at the start of the text only,
    so there is at most one match, the three backticks and the longest
    run of letters after them. *)
Definition sub_leading_fence (text : str) : str :=
  if startswith fence text
  then drop_while is_letter (skipn 3 text)
  else text.

(** [re.sub] of the pattern "```$" by the empty string: [$] matches at
    the end of the text and just before a newline that ends the text;
    the two cannot both hold, so there is at most one match. *)
Definition sub_trailing_fence (text : str) : str :=
  if endswith fence text
  then rev (skipn 3 (rev text))
  else if endswith (fence ++ [chr 10]) text
  then rev (chr 10 :: skipn 4 (rev text))
  else text.

(** [s.find(c)] for a one-character [c]. *)
Fixpoint find (c : ascii) (s : str) : Z :=
  match s with
  | [] => -1
  | x :: s' =>
      if ascii_eqb x c then 0
      else let r := find c s' in if r =? -1 then -1 else r + 1
  end.

(** [s.rfind(c)] for a one-character [c]. *)
Fixpoint rfind (c : ascii) (s : str) : Z :=
  match s with
  | [] => -1
  | x :: s' =>
      let r := rfind c s' in
      if negb (r =? -1) then r + 1
      else if ascii_eqb x c then 0 else -1
  end.

(** A slice bound as Python normalises it: a negative bound counts from
    the end, and the result is clamped to the text. *)
Definition bound (n i : Z) : Z :=
  if i <? 0 then Z.max (i + n) 0 else Z.min i n.

(** [s[i:j]] *)
Definition slice (s : str) (i j : Z) : str :=
  let a := bound (len s) i in
  let b := bound (len s) j in
  firstn (Z.to_nat (b - a)) (skipn (Z.to_nat a) s).

Arguments find c%_char s.
Arguments rfind c%_char s.

End Text.

(** ** Python objects

    What [json.loads] returns and what the renderer walks over: [None],
    [bool], [int], [float], [str], [list] and [dict].  A [dict] keeps its
    keys in insertion order, so it is an association list.  A [float] is
    kept as the literal it was read from; the one thing the code asks of a
    [float], whether it is zero, is decided on the exact value of the
    literal. *)

#[warnings="-register-all"]
Inductive object : Type :=
| VNone
| VBool (b : bool)
| VInt (z : Z)
| VFloat (lexeme : str)
| VStr (s : str)
| VList (l : list object)
| VDict (d : list (str * object)).

Definition dict := list (str * object).

Definition str_eqb (a b : str) : bool := bool_decide (a = b).

(** [d.get(key)]: [None] of the option is the absent key. *)
Fixpoint lookup_key (key : str) (d : dict) : option object :=
  match d with
  | [] => None
  | (k, v) :: d' => if str_eqb k key then Some v else lookup_key key d'
  end.

(** [d.get(key, default)] *)
Definition get (d : dict) (key : str) (default : object) : object :=
  match lookup_key key d with
  | Some v => v
  | None => default
  end.

(** [d[key] = v]: an existing key keeps its place and takes the new value,
    a new key goes last. *)
Fixpoint dict_set (key : str) (v : object) (d : dict) : dict :=
  match d with
  | [] => [(key, v)]
  | (k, w) :: d' =>
      if str_eqb k key then (k, v) :: d' else (k, w) :: dict_set key v d'
  end.

Definition is_digit (c : ascii) : bool := (48 <=? ord c) && (ord c <=? 57).

Definition is_exponent_mark (c : ascii) : bool :=
  ascii_eqb c "e" || ascii_eqb c "E".

(** The digits a text begins with, and what follows them. *)
Fixpoint take_digits (s : str) : str * str :=
  match s with
  | [] => ([], [])
  | c :: s' =>
      if is_digit c then let '(d, r) := take_digits s' in (c :: d, r)
      else ([], s)
  end.

Definition digits_value (d : str) : Z :=
  fold_left (fun acc c => acc * 10 + (ord c - 48)) d 0.

(** The exponent of a float literal, from what follows its mantissa. *)
Definition float_exponent (r : str) : Z :=
  match r with
  | [] => 0
  | c :: r' =>
      if is_exponent_mark c then
        match r' with
        | "-"%char :: x => - digits_value (fst (take_digits x))
        | "+"%char :: x => digits_value (fst (take_digits x))
        | x => digits_value (fst (take_digits x))
        end
      else 0
  end.

(** The literal [i.fEx], with or without a sign, a fraction and an
    exponent, is the number [m * 10 ^ e] up to its sign, where [m] is
    made of the digits of [i] and [f] and [e] is [x] less the number of
    digits of [f]. *)
Definition float_parts (lexeme : str) : Z * Z :=
  let body := match lexeme with "-"%char :: l => l | _ => lexeme end in
  let '(i, r) := take_digits body in
  let '(f, r) := match r with
                 | "."%char :: r' => take_digits r'
                 | _ => ([], r)
                 end in
  (digits_value (i ++ f), float_exponent r - len f).

(** [float(lexeme) != 0.0].  Python rounds the literal to the nearest
    binary64 number, a tie going to the even one, so the float is zero
    exactly when the literal is at most [2 ^ -1075], half the least
    positive float. *)
Definition float_nonzero (lexeme : str) : bool :=
  str_eqb lexeme "NaN" || str_eqb lexeme "Infinity"
  || str_eqb lexeme "-Infinity"
  || (let '(m, e) := float_parts lexeme in
      if m =? 0 then false
      else if 0 <=? e then true
      else 10 ^ (- e) <? m * 2 ^ 1075).

(** [bool(v)], the test behind [if v] and [not v]. *)
Definition truthy (v : object) : bool :=
  match v with
  | VNone => false
  | VBool b => b
  | VInt z => negb (z =? 0)
  | VFloat l => float_nonzero l
  | VStr s => match s with [] => false | _ => true end
  | VList l => match l with [] => false | _ => true end
  | VDict d => match d with [] => false | _ => true end
  end.

(** [v == s] for a [str] [s]: only a [str] equals a [str]. *)
Definition equals_str (v : object) (s : str) : bool :=
  match v with
  | VStr x => str_eqb x s
  | _ => false
  end.

(** A record without a coordinate: the key is absent, or holds [None] or
    the empty text. *)
Definition no_coordinate (record : dict) : Prop :=
  lookup_key "cell_coordinate" record = None
  \/ lookup_key "cell_coordinate" record = Some VNone
  \/ lookup_key "cell_coordinate" record = Some (VStr []).


(** ** Exceptions *)

(** The exceptions the code raises or lets through.  [CoordinateError]
    stands for what the workbook library raises, or makes the next
    statement raise, on a key that designates no cell; [LibraryError]
    for what it raises when it refuses the title of a sheet, the value
    of a cell or an argument of a style. *)
Inductive exn : Type :=
| ValueError (message : str)
| JSONDecodeError
| TypeError
| AttributeError
| CoordinateError
| LibraryError.

Inductive result (A : Type) : Type :=
| Ok (a : A)
| Raise (e : exn).
Arguments Ok {A} a.
Arguments Raise {A} e.

(** The failures of the specification, as the exceptions of the code. *)
Definition NoJsonObjectFound : exn :=
  ValueError "No JSON object found in LLM response".
Definition MalformedJson : exn := JSONDecodeError.
Definition EmptyLayout : exn := ValueError "Output data mappings are empty".
Definition BadCoordinate : exn := CoordinateError.
Definition MissingApiKey : exn :=
  ValueError "GEMINI_API_KEY environment variable is not set".

(** ** The JSON decoder

    [json.loads] belongs to the Python library; this is its grammar as the
    decoder implements it: RFC 8259 values, the four white space
    characters, the constants [NaN], [Infinity] and [-Infinity], strict
    strings (no raw control character), later duplicates of a key
    replacing the earlier value, and nothing but white space after the
    value.  The limits of the interpreter are not part of the grammar:
    Python gives up on an integer of more than 4300 digits and on
    nesting deeper than its recursion limit, where this decoder reads
    on.  So the decoder reads every text Python reads, to the same
    value, and rejects every text Python rejects as malformed. *)

Module json.

Inductive scan (A : Type) : Type :=
| Match (a : A) (rest : str)
| NoMatch
| OutOfFuel.
Arguments Match {A} a rest.
Arguments NoMatch {A}.
Arguments OutOfFuel {A}.

Definition is_whitespace (c : ascii) : bool :=
  ascii_eqb c " " || (ord c =? 9) || (ord c =? 10) || (ord c =? 13).

Definition skip (s : str) : str := Text.drop_while is_whitespace s.

Definition hex_digit (c : ascii) : option Z :=
  let n := ord c in
  if (48 <=? n) && (n <=? 57) then Some (n - 48)
  else if (97 <=? n) && (n <=? 102) then Some (n - 87)
  else if (65 <=? n) && (n <=? 70) then Some (n - 55)
  else None.

Definition hex4 (a b c d : ascii) : option Z :=
  match hex_digit a, hex_digit b, hex_digit c, hex_digit d with
  | Some x, Some y, Some z, Some w => Some (((x * 16 + y) * 16 + z) * 16 + w)
  | _, _, _, _ => None
  end.

(** The UTF-8 encoding of a code point. *)
Definition utf8 (u : Z) : str :=
  if u <? 128 then [chr u]
  else if u <? 2048 then [chr (192 + u / 64); chr (128 + u mod 64)]
  else if u <? 65536 then
    [chr (224 + u / 4096); chr (128 + (u / 64) mod 64); chr (128 + u mod 64)]
  else
    [chr (240 + u / 262144); chr (128 + (u / 4096) mod 64);
     chr (128 + (u / 64) mod 64); chr (128 + u mod 64)].

Definition escape (c : ascii) : option ascii :=
  if ascii_eqb c quote then Some quote
  else if ascii_eqb c "\" then Some "\"%char
  else if ascii_eqb c "/" then Some "/"%char
  else if ascii_eqb c "b" then Some (chr 8)
  else if ascii_eqb c "f" then Some (chr 12)
  else if ascii_eqb c "n" then Some (chr 10)
  else if ascii_eqb c "r" then Some (chr 13)
  else if ascii_eqb c "t" then Some (chr 9)
  else None.

Definition prepend (p : str) (r : option (str * str)) : option (str * str) :=
  match r with
  | Some (s, rest) => Some (p ++ s, rest)
  | None => None
  end.

Definition is_high_surrogate (u : Z) : bool := (55296 <=? u) && (u <=? 56319).
Definition is_low_surrogate (u : Z) : bool := (56320 <=? u) && (u <=? 57343).

(** The low half of a surrogate pair at the head of [s], with what
    follows it. *)
Definition low_surrogate (s : str) : option (Z * str) :=
  match s with
  | b :: u :: h1 :: h2 :: h3 :: h4 :: rest =>
      if ascii_eqb b "\" && ascii_eqb u "u" then
        match hex4 h1 h2 h3 h4 with
        | Some lo => if is_low_surrogate lo then Some (lo, rest) else None
        | None => None
        end
      else None
  | _ => None
  end.

(** [scanstring]: the text of a string literal whose opening quote has
    been read, and what follows its closing quote. *)
Fixpoint scanstring (s : str) : option (str * str) :=
  match s with
  | [] => None
  | c :: s1 =>
      if ascii_eqb c quote then Some ([], s1)
      else if ascii_eqb c "\" then
        match s1 with
        | [] => None
        | e :: s2 =>
            if ascii_eqb e "u" then
              match s2 with
              | h1 :: h2 :: h3 :: h4 :: s3 =>
                  match hex4 h1 h2 h3 h4 with
                  | None => None
                  | Some hi =>
                      match s3 with
                      | _ :: _ :: _ :: _ :: _ :: _ :: s4 =>
                          match low_surrogate s3 with
                          | Some (lo, _) =>
                              if is_high_surrogate hi then
                                prepend
                                  (utf8 (65536 + (hi - 55296) * 1024 + (lo - 56320)))
                                  (scanstring s4)
                              else prepend (utf8 hi) (scanstring s3)
                          | None => prepend (utf8 hi) (scanstring s3)
                          end
                      | _ => prepend (utf8 hi) (scanstring s3)
                      end
                  end
              | _ => None
              end
            else
              match escape e with
              | Some x => prepend [x] (scanstring s2)
              | None => None
              end
        end
      else if ord c <? 32 then None
      else prepend [c] (scanstring s1)
  end.

Fixpoint digits (s : str) : str * str :=
  match s with
  | c :: s' =>
      if is_digit c then let '(d, r) := digits s' in (c :: d, r) else ([], s)
  | [] => ([], [])
  end.

Definition int_of_digits (d : str) : Z :=
  fold_left (fun acc c => acc * 10 + (ord c - 48)) d 0.

(** The integer part of a number: [0] or a digit other than [0]
    followed by digits. *)
Definition integer_part (s : str) : option (str * str) :=
  match s with
  | c :: s' =>
      if ascii_eqb c "0" then Some ([c], s')
      else if is_digit c then let '(d, r) := digits s' in Some (c :: d, r)
      else None
  | [] => None
  end.

Definition fraction_part (s : str) : str * str :=
  match s with
  | c :: s' =>
      if ascii_eqb c "." then
        match digits s' with
        | ([], _) => ([], s)
        | (d, r) => (c :: d, r)
        end
      else ([], s)
  | [] => ([], s)
  end.

Definition exponent_part (s : str) : str * str :=
  match s with
  | c :: s' =>
      if is_exponent_mark c then
        match s' with
        | g :: s'' =>
            if ascii_eqb g "+" || ascii_eqb g "-" then
              match digits s'' with
              | ([], _) => ([], s)
              | (d, r) => (c :: g :: d, r)
              end
            else
              match digits s' with
              | ([], _) => ([], s)
              | (d, r) => (c :: d, r)
              end
        | [] => ([], s)
        end
      else ([], s)
  | [] => ([], s)
  end.

(** The regular expression of numbers: an optional minus sign and an
    integer part, then an optional fraction (a dot and digits), then an
    optional exponent (e or E, an optional sign, digits).  A number with
    a fraction or an exponent is a [float], any other an [int]. *)
Definition match_number (s : str) : scan object :=
  let '(sign, s0) :=
    match s with
    | c :: s' => if ascii_eqb c "-" then ([c], s') else ([], s)
    | [] => ([], s)
    end in
  match integer_part s0 with
  | None => NoMatch
  | Some (i, s1) =>
      let '(f, s2) := fraction_part s1 in
      let '(e, s3) := exponent_part s2 in
      match f, e with
      | [], [] =>
          Match (VInt (match sign with
                       | [] => int_of_digits i
                       | _ => - int_of_digits i
                       end)) s3
      | _, _ => Match (VFloat (sign ++ i ++ f ++ e)) s3
      end
  end.

Definition constant (name : str) (v : object) (s : str) : option (scan object) :=
  if Text.startswith name s
  then Some (Match v (skipn (length name) s))
  else None.

(** A value that is neither a string, an object nor an array. *)
Definition scan_atom (s : str) : scan object :=
  match constant "null" VNone s with Some r => r | None =>
  match constant "true" (VBool true) s with Some r => r | None =>
  match constant "false" (VBool false) s with Some r => r | None =>
  match constant "NaN" (VFloat "NaN") s with Some r => r | None =>
  match constant "Infinity" (VFloat "Infinity") s with Some r => r | None =>
  match constant "-Infinity" (VFloat "-Infinity") s with Some r => r | None =>
  match_number s
  end end end end end end.

Fixpoint scan_once (fuel : nat) (s : str) : scan object :=
  match fuel with
  | O => OutOfFuel
  | S fuel =>
      match s with
      | [] => NoMatch
      | c :: s1 =>
          if ascii_eqb c quote then
            match scanstring s1 with
            | Some (x, rest) => Match (VStr x) rest
            | None => NoMatch
            end
          else if ascii_eqb c "{" then
            match skip s1 with
            | c' :: rest =>
                if ascii_eqb c' "}" then Match (VDict []) rest
                else parse_object fuel [] (skip s1)
            | [] => NoMatch
            end
          else if ascii_eqb c "[" then
            match skip s1 with
            | c' :: rest =>
                if ascii_eqb c' "]" then Match (VList []) rest
                else parse_array fuel [] (skip s1)
            | [] => NoMatch
            end
          else scan_atom s
      end
  end

(** The members of an object from a key on; [pairs] holds the members
    read so far. *)
with parse_object (fuel : nat) (pairs : dict) (s : str) : scan object :=
  match fuel with
  | O => OutOfFuel
  | S fuel =>
      match s with
      | [] => NoMatch
      | q :: s1 =>
          if ascii_eqb q quote then
            match scanstring s1 with
            | None => NoMatch
            | Some (key, s2) =>
                match skip s2 with
                | [] => NoMatch
                | colon :: s3 =>
                    if ascii_eqb colon ":" then
                      match scan_once fuel (skip s3) with
                      | Match v s4 =>
                          let pairs' := dict_set key v pairs in
                          match skip s4 with
                          | [] => NoMatch
                          | d :: s5 =>
                              if ascii_eqb d "}" then Match (VDict pairs') s5
                              else if ascii_eqb d "," then
                                parse_object fuel pairs' (skip s5)
                              else NoMatch
                          end
                      | NoMatch => NoMatch
                      | OutOfFuel => OutOfFuel
                      end
                    else NoMatch
                end
            end
          else NoMatch
      end
  end

(** The elements of an array from a value on; [values] holds the
    elements read so far, the last one first. *)
with parse_array (fuel : nat) (values : list object) (s : str) : scan object :=
  match fuel with
  | O => OutOfFuel
  | S fuel =>
      match scan_once fuel s with
      | Match v s1 =>
          match skip s1 with
          | [] => NoMatch
          | d :: s2 =>
              if ascii_eqb d "]" then Match (VList (rev (v :: values))) s2
              else if ascii_eqb d "," then
                parse_array fuel (v :: values) (skip s2)
              else NoMatch
          end
      | NoMatch => NoMatch
      | OutOfFuel => OutOfFuel
      end
  end.

Definition fuel_for (s : str) : nat := 2 * length s + 2.

(** [json.loads(s)]; [None] is [JSONDecodeError]. *)
Definition loads (s : str) : option object :=
  match scan_once (fuel_for s) (skip s) with
  | Match v rest =>
      match skip rest with
      | [] => Some v
      | _ :: _ => None
      end
  | NoMatch | OutOfFuel => None
  end.

End json.


(** [rest] is what is left of [s] after at least one character of it. *)
Definition after (rest s : str) : Prop :=
  rest `suffix_of` s /\ (length rest < length s)%nat.

(** A value that is no container: what the decoder reads without
    recursion. *)
Definition atomic (v : object) : Prop :=
  match v with
  | VList _ | VDict _ => False
  | _ => True
  end.

(** ** The mapping ingestor *)

Definition parse_llm_json (raw_text : str) : result object :=
  let text := Text.strip raw_text in
  let text :=
    if Text.startswith Text.fence text
    then Text.strip (Text.sub_trailing_fence (Text.sub_leading_fence text))
    else text in
  let first_brace := Text.find "{" text in
  let last_brace := Text.rfind "}" text in
  if (first_brace =? -1) || (last_brace =? -1)
  then Raise (ValueError "No JSON object found in LLM response")
  else
    let text := Text.slice text first_brace (last_brace + 1) in
    match json.loads text with
    | Some v => Ok v
    | None => Raise JSONDecodeError
    end.

Definition is_brace (c : ascii) : bool := ascii_eqb c "{" || ascii_eqb c "}".

(** A text without braces. *)
Definition braceless (x : str) : bool := forallb (fun c => negb (is_brace c)) x.

(** The text between the first opening brace and the last closing brace,
    when the text has both characters: what [parse_llm_json] hands to the
    decoder. *)
Definition extract (text : str) : option str :=
  let first_brace := Text.find "{" text in
  let last_brace := Text.rfind "}" text in
  if (first_brace =? -1) || (last_brace =? -1) then None
  else Some (Text.slice text first_brace (last_brace + 1)).

(** Modelled from the spec: braces are balanced when every closing brace
    closes an opening one and none stays open; [depth] counts the braces
    open so far. *)
Fixpoint balanced_from (depth : Z) (s : str) : bool :=
  match s with
  | [] => depth =? 0
  | c :: s' =>
      if ascii_eqb c "{" then balanced_from (depth + 1) s'
      else if ascii_eqb c "}" then (0 <? depth) && balanced_from (depth - 1) s'
      else balanced_from depth s'
  end.

Definition balanced (s : str) : bool := balanced_from 0 s.

(** The result of the decoder as [parse_llm_json] returns it. *)
Definition decoded (text : str) : result object :=
  match json.loads text with
  | Some v => Ok v
  | None => Raise JSONDecodeError
  end.

(** ** The workbook library

    [openpyxl] is not part of the repository.  Its objects are records
    that hold what the code stores in them, and what the library decides
    is a parameter: the titles [create_sheet] accepts and the title it
    gives a new sheet (it renames a sheet whose title is taken), the
    cell [worksheet[key]] designates, if it designates one, the value a
    cell holds after [cell.value = v], if the library takes [v], and the
    arguments the constructors of the styles accept. *)

Record Font := { size : object; color : object; bold : object; italic : object }.

Record PatternFill :=
  { start_color : object; end_color : object; fill_type : str }.

Record Alignment :=
  { horizontal : object; vertical : object; wrap_text : bool }.

(** [Side(style=None)] leaves the colour at its default, [None]. *)
Record Side := { style : object; side_color : object }.

Record Border := { top : Side; bottom : Side; left : Side; right : Side }.

(** A cell; [None] in a style field is the style of a new cell. *)
Record Cell := {
  value : object;
  font : option Font;
  fill : option PatternFill;
  alignment : option Alignment;
  border : option Border
}.

Definition new_cell : Cell :=
  {| value := VNone; font := None; fill := None; alignment := None;
     border := None |}.

Record Worksheet := { title : str; cells : gmap (Z * Z) Cell }.

Definition Workbook := list Worksheet.

Class Openpyxl := {
  (** the title of a sheet created under a name, given the titles in use *)
  avoid_duplicate_name : list str -> str -> str;
  (** the row and the column of the cell a key designates; [None] when
      the key designates no single cell and the code cannot write to it *)
  coordinate : object -> option (Z * Z);
  (** [create_sheet] accepts the name; it raises otherwise *)
  valid_title : str -> bool;
  (** what a cell holds after [cell.value = v]; [None] when the
      assignment raises *)
  bind_value : object -> option object;
  (** [Font], [PatternFill], [Alignment] and [Side] accept their
      arguments; they raise otherwise *)
  valid_font : Font -> bool;
  valid_fill : PatternFill -> bool;
  valid_alignment : Alignment -> bool;
  valid_side : Side -> bool
}.

(** [xl.Workbook()]: a new workbook holds one empty sheet, "Sheet". *)
Definition new_workbook : Workbook := [ {| title := "Sheet"; cells := ∅ |} ].

Definition sheetnames (wb : Workbook) : list str := map title wb.

(** [worksheet[key]] when the key designates the cell at [rc]: the cell
    already there, or a new one. *)
Definition cell_at (ws : Worksheet) (rc : Z * Z) : Cell :=
  default new_cell (cells ws !! rc).

Definition put_cell (ws : Worksheet) (rc : Z * Z) (c : Cell) : Worksheet :=
  {| title := title ws; cells := <[rc := c]> (cells ws) |}.

(** [del wb[name]]: the first sheet of that title goes. *)
Fixpoint del_sheet (name : str) (wb : Workbook) : Workbook :=
  match wb with
  | [] => []
  | ws :: wb' => if str_eqb (title ws) name then wb' else ws :: del_sheet name wb'
  end.

(** ** Styling a cell *)

Definition make_side (border_color : object) (style : object) : Side :=
  if truthy style && negb (equals_str style "none")
  then {| style := style; side_color := border_color |}
  else {| style := VNone; side_color := VNone |}.

(** What [apply_cell_style] leaves of the cell when it returns, that
    is, when the library accepts every argument ([style_accepted]
    below); the call itself is [style_cell]. *)
Definition apply_cell_style (cell : Cell) (style_data : dict) : Cell :=
  let font_size := get style_data "font_size" (VInt 11) in
  let font_color := get style_data "font_color" (VStr "000000") in
  let is_bold := get style_data "is_bold" (VBool false) in
  let is_italic := get style_data "is_italic" (VBool false) in
  let bg_color := get style_data "background_color" VNone in
  let h_align := get style_data "horizontal_alignment" (VStr "left") in
  let v_align := get style_data "vertical_alignment" (VStr "center") in
  let border_color := get style_data "border_color" (VStr "D3D3D3") in
  let border_top := get style_data "border_top" (VStr "none") in
  let border_bottom := get style_data "border_bottom" (VStr "none") in
  let border_left := get style_data "border_left" (VStr "none") in
  let border_right := get style_data "border_right" (VStr "none") in
  {| value := value cell;
     font := Some {| size := font_size; color := font_color;
                     bold := is_bold; italic := is_italic |};
     fill := if truthy bg_color
             then Some {| start_color := bg_color; end_color := bg_color;
                          fill_type := "solid" |}
             else fill cell;
     alignment := Some {| horizontal := h_align; vertical := v_align;
                          wrap_text := true |};
     border := Some {| top := make_side border_color border_top;
                       bottom := make_side border_color border_bottom;
                       left := make_side border_color border_left;
                       right := make_side border_color border_right |} |}.


(** The cell with another value. *)
Definition with_value (cell : Cell) (stored : object) : Cell :=
  {| value := stored; font := font cell; fill := fill cell;
     alignment := alignment cell; border := border cell |}.

Section Library.

Context `{Openpyxl}.

(** [cell.value = v]: the cell holds what the library makes of [v]. *)
Definition set_value (cell : Cell) (v : object) : result Cell :=
  match bind_value v with
  | Some stored => Ok (with_value cell stored)
  | None => Raise LibraryError
  end.

(** The library accepts the arguments [apply_cell_style] hands to
    [Font], to [PatternFill] when there is a background colour, to
    [Alignment] and to the four calls of [Side]. *)
Definition style_accepted (style_data : dict) : bool :=
  let font_size := get style_data "font_size" (VInt 11) in
  let font_color := get style_data "font_color" (VStr "000000") in
  let is_bold := get style_data "is_bold" (VBool false) in
  let is_italic := get style_data "is_italic" (VBool false) in
  let bg_color := get style_data "background_color" VNone in
  let h_align := get style_data "horizontal_alignment" (VStr "left") in
  let v_align := get style_data "vertical_alignment" (VStr "center") in
  let border_color := get style_data "border_color" (VStr "D3D3D3") in
  let border_top := get style_data "border_top" (VStr "none") in
  let border_bottom := get style_data "border_bottom" (VStr "none") in
  let border_left := get style_data "border_left" (VStr "none") in
  let border_right := get style_data "border_right" (VStr "none") in
  valid_font {| size := font_size; color := font_color;
                bold := is_bold; italic := is_italic |}
  && (if truthy bg_color
      then valid_fill {| start_color := bg_color; end_color := bg_color;
                         fill_type := "solid" |}
      else true)
  && valid_alignment {| horizontal := h_align; vertical := v_align;
                        wrap_text := true |}
  && valid_side (make_side border_color border_top)
  && valid_side (make_side border_color border_bottom)
  && valid_side (make_side border_color border_left)
  && valid_side (make_side border_color border_right).

(** The call [apply_cell_style(cell, style_data)]: it raises as soon as
    the library refuses an argument, before or after part of the style
    is set, and the exception ends [generate_excel]. *)
Definition style_cell (cell : Cell) (style_data : dict) : result Cell :=
  if style_accepted style_data
  then Ok (apply_cell_style cell style_data)
  else Raise LibraryError.

End Library.

(** ** The renderer *)

(** What [for value in values] walks over.  A [str] yields its characters
    and a [dict] its keys, all of them [str] (here one per byte of the
    text, the body of the loop fails at its first line on any [str]);
    any other object is not iterable. *)
Definition iterate (values : object) : result (list object) :=
  match values with
  | VList l => Ok l
  | VStr s => Ok (map (fun c => VStr [c]) s)
  | VDict d => Ok (map (fun kv => VStr (fst kv)) d)
  | _ => Raise TypeError
  end.

(** The bytes of a saved workbook are modelled by the workbook. *)
Definition xlsx := Workbook.

(** [final_workbook.save(buf)] *)
Definition save (wb : Workbook) : xlsx := wb.

Definition filesystem := gmap str xlsx.

Section Renderer.

Context `{Openpyxl}.

(** [final_workbook.create_sheet(sheet_name)]: the new, empty sheet,
    when the library accepts the name. *)
Definition create_sheet (wb : Workbook) (sheet_name : str) : result Worksheet :=
  if valid_title sheet_name
  then Ok {| title := avoid_duplicate_name (sheetnames wb) sheet_name;
             cells := ∅ |}
  else Raise LibraryError.

(** The inner loop of [generate_excel] over the records of a sheet. *)
Fixpoint write_cells (worksheet : Worksheet) (values : list object)
  : result Worksheet :=
  match values with
  | [] => Ok worksheet
  | VDict record :: rest =>
      let cell_coordinate := get record "cell_coordinate" VNone in
      let cell_value := get record "cell_value" VNone in
      if negb (truthy cell_coordinate) then write_cells worksheet rest
      else
        match coordinate cell_coordinate with
        | None => Raise CoordinateError
        | Some rc =>
            let cell := cell_at worksheet rc in
            match set_value cell cell_value with
            | Raise e => Raise e
            | Ok cell =>
                match style_cell cell record with
                | Raise e => Raise e
                | Ok cell => write_cells (put_cell worksheet rc cell) rest
                end
            end
        end
  | _ :: _ => Raise AttributeError
  end.

(** One turn of the outer loop of [generate_excel]: the sheet of an
    item, created and filled. *)
Definition write_sheet (final_workbook : Workbook) (sheet_name : str)
    (values : object) : result Worksheet :=
  match create_sheet final_workbook sheet_name with
  | Raise e => Raise e
  | Ok worksheet =>
      match iterate values with
      | Raise e => Raise e
      | Ok records => write_cells worksheet records
      end
  end.

(** The outer loop of [generate_excel] over the items of the mapping. *)
Fixpoint write_sheets (final_workbook : Workbook) (items : dict)
  : result Workbook :=
  match items with
  | [] => Ok final_workbook
  | (sheet_name, values) :: rest =>
      match write_sheet final_workbook sheet_name values with
      | Raise e => Raise e
      | Ok worksheet => write_sheets (final_workbook ++ [worksheet]) rest
      end
  end.

(** The workbook [generate_excel] has built when it reaches
    [final_workbook.save]. *)
Definition build_workbook (output_data_mappings : object) : result Workbook :=
  if negb (truthy output_data_mappings)
  then Raise (ValueError "Output data mappings are empty")
  else
    match output_data_mappings with
    | VDict items =>
        match write_sheets new_workbook items with
        | Raise e => Raise e
        | Ok final_workbook =>
            Ok (if bool_decide (py "Sheet" ∈ sheetnames final_workbook)
                then del_sheet "Sheet" final_workbook
                else final_workbook)
        end
    | _ => Raise AttributeError
    end.

(** [generate_excel]: [save] fills the buffer, then the buffer is
    written to the file at [output_path]. *)
Definition generate_excel (fs : filesystem) (output_path : str)
    (output_data_mappings : object) : result unit * filesystem :=
  match build_workbook output_data_mappings with
  | Raise e => (Raise e, fs)
  | Ok final_workbook =>
      let buf := save final_workbook in
      (Ok tt, <[output_path := buf]> fs)
  end.

(** A record the renderer can apply: a [dict] whose coordinate is
    falsy, or designates a cell, with a value the library stores and a
    style it accepts. *)
Definition cell_mapping (r : object) : Prop :=
  exists record,
    r = VDict record
    /\ (truthy (get record "cell_coordinate" VNone) = true ->
        coordinate (get record "cell_coordinate" VNone) <> None
        /\ bind_value (get record "cell_value" VNone) <> None
        /\ style_accepted record = true).

(** A layout mapping: every sheet name is one the library accepts, and
    is mapped to a list of such records. *)
Definition layout_output (items : dict) : Prop :=
  Forall (fun kv => valid_title (fst kv) = true
                    /\ exists records,
                         snd kv = VList records /\ Forall cell_mapping records)
    items.

End Renderer.

(** ** The producer call and the main flow *)

(** The world outside the program: the environment variables, the model
    behind the API (the text it answers to a prompt, given the prompts it
    was sent before), the prompts sent so far, and the files. *)
Record World := {
  environ : list (str * str);
  model : list str -> str -> str;
  sent : list str;
  files : filesystem
}.

(** [os.environ.get(name)] *)
Fixpoint getenv (name : str) (env : list (str * str)) : option str :=
  match env with
  | [] => None
  | (k, v) :: env' => if str_eqb k name then Some v else getenv name env'
  end.

Definition call_llm (w : World) (prompt : str) : result object * World :=
  match getenv "GEMINI_API_KEY" (environ w) with
  | None | Some [] =>
      (Raise (ValueError "GEMINI_API_KEY environment variable is not set"), w)
  | Some (_ :: _) =>
      let response := model w (sent w) prompt in
      (parse_llm_json response,
       {| environ := environ w; model := model w;
          sent := sent w ++ [prompt]; files := files w |})
  end.

(** [api_key] is there and not empty. *)
Definition has_api_key (w : World) : bool :=
  match getenv "GEMINI_API_KEY" (environ w) with
  | Some (_ :: _) => true
  | _ => false
  end.

(** A world whose model answers the first request with one mapping and
    every later request with another. *)
Definition fickle_world : World := {|
  environ := [(py "GEMINI_API_KEY", py "secret")];
  model sent _ :=
    match sent with
    | [] => dq "{'First': []}"
    | _ :: _ => dq "{'Second': []}"
    end;
  sent := [];
  files := ∅
|}.

Section Main.

Context `{Openpyxl}.

(** [main] from the prompt on: the mapping the producer returns goes to
    the renderer as it is. *)
Definition main (w : World) (prompt : str) : result unit * World :=
  let output_path : str := "output.xlsx" in
  match call_llm w prompt with
  | (Raise e, w1) => (Raise e, w1)
  | (Ok output_data_mappings, w1) =>
      let '(r, fs) := generate_excel (files w1) output_path output_data_mappings in
      (r, {| environ := environ w1; model := model w1; sent := sent w1;
             files := fs |})
  end.

End Main.

(** ** The coordinate codec *)

Module Codec.

Inductive outcome (A : Type) : Type :=
| Done (a : A)
| InvalidCoordinate.
Arguments Done {A} a.
Arguments InvalidCoordinate {A}.

Definition is_upper (c : ascii) : bool := (65 <=? ord c) && (ord c <=? 90).

(** Modelled from the spec: the column letters of the Coordinate Codec,
    which [main.py] does not define (the producer writes the addresses
    and the workbook library reads them).  Bijective base 26: there is no
    letter for zero. *)
Fixpoint letters (fuel : nat) (col : Z) : str :=
  match fuel with
  | O => []
  | S fuel =>
      if col <=? 0 then []
      else letters fuel ((col - 1) / 26) ++ [chr (65 + (col - 1) mod 26)]
  end.

Definition column_letters (col : Z) : str := letters (Z.to_nat col) col.

(** Modelled from the spec: the decimal digits of a row number. *)
Fixpoint decimal (fuel : nat) (n : Z) : str :=
  match fuel with
  | O => []
  | S fuel =>
      if n <? 10 then [chr (48 + n)]
      else decimal fuel (n / 10) ++ [chr (48 + n mod 10)]
  end.

Definition row_digits (row : Z) : str := decimal (Z.to_nat row) row.

(** Modelled from the spec: [encode] of the Coordinate Codec, failing on
    a row or a column that is not positive. *)
Definition encode (row col : Z) : outcome str :=
  if (row <=? 0) || (col <=? 0) then InvalidCoordinate
  else Done (column_letters col ++ row_digits row).

Definition column_number (ls : str) : Z :=
  fold_left (fun acc c => acc * 26 + (ord c - 64)) ls 0.

Definition row_number (ds : str) : Z :=
  fold_left (fun acc c => acc * 10 + (ord c - 48)) ds 0.

Fixpoint span (f : ascii -> bool) (s : str) : str * str :=
  match s with
  | [] => ([], [])
  | c :: s' =>
      if f c then let '(a, b) := span f s' in (c :: a, b) else ([], s)
  end.

(** Modelled from the spec: [decode] of the Coordinate Codec.  An address
    is one or more capital letters followed by one or more digits that
    make a positive row number; anything else is malformed. *)
Definition decode (address : str) : outcome (Z * Z) :=
  let '(ls, ds) := span is_upper address in
  match ls, ds with
  | _ :: _, _ :: _ =>
      if forallb is_digit ds && (0 <? row_number ds)
      then Done (row_number ds, column_number ls)
      else InvalidCoordinate
  | _, _ => InvalidCoordinate
  end.

(** [decode(encode(row, col))] *)
Definition roundtrip (row col : Z) : outcome (Z * Z) :=
  match encode row col with
  | Done address => decode address
  | InvalidCoordinate => InvalidCoordinate
  end.

End Codec.

(** A character no sheet title may hold. *)
Definition title_character_refused (c : ascii) : bool :=
  existsb (ascii_eqb c) (py "/\?*:[]").

Definition is_hex (c : ascii) : bool :=
  is_digit c || ((65 <=? ord c) && (ord c <=? 70))
  || ((97 <=? ord c) && (ord c <=? 102)).

(** A colour: no colour, or six or eight hexadecimal digits. *)
Definition is_colour (v : object) : bool :=
  match v with
  | VNone => true
  | VStr s =>
      forallb is_hex s && (Nat.eqb (length s) 6 || Nat.eqb (length s) 8)
  | _ => false
  end.

(** Nothing, or one of the names. *)
Definition one_of (names : list string) (v : object) : bool :=
  match v with
  | VNone => true
  | VStr s => existsb (fun name => str_eqb s (py name)) names
  | _ => false
  end.

(** Modelled from the spec: a workbook library whose cell keys are the
    addresses of the Coordinate Codec, and which numbers a sheet whose
    title is taken.  It serves the examples, and refuses what the
    workbook library refuses in them: a title with one of the
    characters the library excludes, a list or a [dict] as the value of
    a cell (a text is cut after 32767 bytes), a colour that is not made
    of six or eight hexadecimal digits, an alignment or a border style
    the library has no name for. *)
Definition codec_workbook : Openpyxl := {|
  avoid_duplicate_name names name :=
    if bool_decide (name ∈ names) then name ++ py "1" else name;
  coordinate key :=
    match key with
    | VStr address =>
        match Codec.decode address with
        | Codec.Done rc => Some rc
        | Codec.InvalidCoordinate => None
        end
    | _ => None
    end;
  valid_title name := negb (existsb title_character_refused name);
  bind_value v :=
    match v with
    | VList _ | VDict _ => None
    | VStr s => Some (VStr (firstn (Z.to_nat 32767) s))
    | _ => Some v
    end;
  valid_font f := is_colour (color f);
  valid_fill p := is_colour (start_color p) && is_colour (end_color p);
  valid_alignment a :=
    one_of ["general"; "left"; "center"; "right"; "fill"; "justify";
            "centerContinuous"; "distributed"] (horizontal a)
    && one_of ["top"; "center"; "bottom"; "justify"; "distributed"]
         (vertical a);
  valid_side s :=
    one_of ["thin"; "medium"; "thick"; "dashed"; "dotted"; "double";
            "hair"] (style s)
    && is_colour (side_color s)
|}.

(** ** The invariants of a layout mapping *)

(** The coordinates of the records of a sheet, in order. *)
Definition coordinates (records : list object) : list object :=
  omap (fun r => match r with
                 | VDict record => lookup_key "cell_coordinate" record
                 | _ => None
                 end) records.

(** Modelled from the spec: invariant 1 of a LayoutOutput, no two cell
    mappings of a sheet share a coordinate. *)
Definition unique_coordinates (mapping : dict) : Prop :=
  Forall (fun kv => match snd kv with
                    | VList records => NoDup (coordinates records)
                    | _ => True
                    end) mapping.

(** ** Sample records and worlds *)

Definition valued_only : dict := [(py "cell_value", VInt 1)].

Definition at_A1 : dict :=
  [(py "cell_coordinate", VStr "A1"); (py "cell_value", VInt 1)].

Definition at_A1_again : dict :=
  [(py "cell_coordinate", VStr "A1"); (py "cell_value", VInt 2)].

Definition at_nowhere : dict :=
  [(py "cell_coordinate", VStr "??"); (py "cell_value", VInt 3)].


(** A record with one attribute of a style, a colour that is no
    colour. *)
Definition red_font : dict :=
  [(py "cell_coordinate", VStr "A1"); (py "cell_value", VInt 1);
   (py "font_color", VStr "red")].

(** A world whose model wraps the first mapping of [fickle_world] in a
    fence and in prose, under another key. *)
Definition fenced_world : World := {|
  environ := [(py "GEMINI_API_KEY", py "other")];
  model _ _ :=
    py "Here it is: ```json" ++ [chr 10] ++ dq "{'First': []}" ++ [chr 10]
    ++ py "``` Done.";
  sent := [py "earlier"];
  files := ∅
|}.

Definition old_files : filesystem :=
  {[ py "output.xlsx" := [ {| title := "Earlier"; cells := ∅ |} ] ]}.

Definition duplicate_text : str :=
  dq "{'S': [{'cell_coordinate': 'A1', 'cell_value': 1}, {'cell_coordinate': 'A1', 'cell_value': 2}]}".

Definition duplicate_mapping : dict := [(py "S", VList [VDict at_A1; VDict at_A1_again])].

(** A world whose model answers every prompt with [duplicate_text]. *)
Definition duplicate_world : World := {|
  environ := [(py "GEMINI_API_KEY", py "secret")];
  model _ _ := duplicate_text;
  sent := [];
  files := ∅
|}.

(** ** The cells the renderer writes *)

Section Targets.

Context `{Openpyxl}.

(** The cell a record is written to: none for a record that is skipped,
    or that the loop cannot apply. *)
Definition target (r : object) : option (Z * Z) :=
  match r with
  | VDict record =>
      let cell_coordinate := get record "cell_coordinate" VNone in
      if truthy cell_coordinate then coordinate cell_coordinate else None
  | _ => None
  end.

Definition targets (records : list object) : list (Z * Z) := omap target records.

(** What one turn of the inner loop of [generate_excel] makes of the
    worksheet, for a record the loop can apply. *)
Definition written (worksheet : Worksheet) (r : object) : Worksheet :=
  match r, target r with
  | VDict record, Some rc =>
      match bind_value (get record "cell_value" VNone) with
      | Some stored =>
          put_cell worksheet rc
            (apply_cell_style (with_value (cell_at worksheet rc) stored) record)
      | None => worksheet
      end
  | _, _ => worksheet
  end.

End Targets.

(** The objects [for value in values] cannot walk over. *)
Definition not_iterable (values : object) : bool :=
  match values with
  | VNone | VBool _ | VInt _ | VFloat _ => true
  | _ => false
  end.

(** A text or a [dict] that is not empty: the loop walks over [str]
    objects. *)
Definition yields_str (values : object) : bool :=
  match values with
  | VStr (_ :: _) | VDict (_ :: _) => true
  | _ => false
  end.

(** An empty text, [dict] or [list]: the loop has nothing to walk
    over. *)
Definition yields_nothing (values : object) : bool :=
  match values with
  | VStr [] | VDict [] | VList [] => true
  | _ => false
  end.

(** ** The prompt *)

(** The text of a template, written with [@] where it has a double
    quote. *)
Definition template (s : string) : str :=
  map (fun c => if ascii_eqb c "@" then quote else c) (py s).

(** The f-string of [load_prompt] up to the input data. *)
Definition prompt_head : str := template
"You are a deterministic JSON-to-Excel layout engine with styling capabilities.

You receive extracted document data as JSON and must produce a structured JSON output
that maps every piece of data to exact Excel cell coordinates WITH styling properties.

────────────────────────
INPUT DATA (TOON encoded)
────────────────────────

".

(** The f-string of [load_prompt] after the input data, its doubled
    braces written once, as the f-string yields them. *)
Definition prompt_tail : str := template
"

The input contains one or more files. Each file has:
- @file_name@: name of the source document
- @classified_file_type@: document category (e.g. @bank_statement@)
- @fields@: list of extracted fields, each with:
    - @field_name@: human-readable label
    - @field_key@: machine identifier
    - @section@: logical grouping (e.g. @Account Information@, @Transaction History@)
    - @data_type@: one of @String@, @Number@, @Date@, @Table@
    - @value@: the extracted value (can be null, a scalar, or an array of objects for Table types)

────────────────────────
YOUR TASK
────────────────────────

Produce a JSON object where:
- Each root key is an Excel SHEET NAME (derived from the file's classified_file_type, e.g. @Bank Statement@).
- Each sheet value is a list of cell objects with the structure:
    {
        @cell_coordinate@: @<column_letter><row_number>@,
        @cell_value@: @<string or number>@,
        @font_size@: <integer>,
        @font_color@: @<6-char hex color>@,
        @background_color@: @<6-char hex color or null>@,
        @is_bold@: <boolean>,
        @is_italic@: <boolean>,
        @horizontal_alignment@: @<left|center|right>@,
        @vertical_alignment@: @<top|center|bottom>@,
        @border_top@: @<thin|medium|thick|none>@,
        @border_bottom@: @<thin|medium|thick|none>@,
        @border_left@: @<thin|medium|thick|none>@,
        @border_right@: @<thin|medium|thick|none>@,
        @border_color@: @<6-char hex color>@
    }

────────────────────────
LAYOUT RULES
────────────────────────

1. DOCUMENT HEADER (Row 1)
   - A1: The document title derived from classified_file_type (e.g. @Bank Statement@)

2. SCALAR FIELDS (key-value pairs)
   - Group scalar fields (String, Number, Date) by their @section@.
   - For each section, output a SECTION HEADER row with the section name in column A.
   - Then output each field as a row with:
       - Column A: field_name (the label)
       - Column B: the value (use @@ if value is null)
   - Leave one empty row between sections for readability.

3. TABLE FIELDS (data_type = @Table@)
   - Start on a new row after all scalar sections, with one empty row gap.
   - Output a SECTION HEADER row with the section name in column A.
   - Next row: column headers derived from the table's object keys (e.g. @Transaction Date@, @Description@, @Deposit Amount@, etc.).
       - Place headers starting from column A, one per column.
   - Subsequent rows: one row per table record, values placed in corresponding columns.
   - Use @@ for any null values within table rows.
   - Preserve the original column order from the input data.

4. COORDINATE ASSIGNMENT
   - Row numbering is sequential starting from 1.
   - Column letters follow Excel convention: A, B, C, ... Z, AA, AB, etc.
   - Every cell_coordinate must be unique within a sheet.
   - No gaps in row numbering except the intentional empty rows between sections.

────────────────────────
STYLING RULES (PRIORITY-BASED)
────────────────────────

You MUST assign styling to every cell based on its role. Use the hierarchy below
to decide font size, colors, weight, and alignment. Pick a professional, clean
color palette (blues/grays work well for financial documents).

PRIORITY 1 — DOCUMENT TITLE (highest visual priority)
   - font_size: 12
   - font_color: @000000@
   - background_color: @FFD2BF@
   - is_bold: true
   - is_italic: false
   - horizontal_alignment: @left@
   - vertical_alignment: @center@
   - border_top: @medium@, border_bottom: @medium@, border_left: @medium@, border_right: @medium@
   - border_color: @000000@

PRIORITY 2 — SECTION HEADERS (section name rows)
   - font_size: 11
   - font_color: @000000@
   - background_color: @B6C2DB@
   - is_bold: true
   - is_italic: false
   - horizontal_alignment: @left@
   - vertical_alignment: @center@
   - border_top: @medium@, border_bottom: @medium@, border_left: @thin@, border_right: @thin@
   - border_color: @000000@

PRIORITY 3 — FIELD LABELS (column A in key-value rows) & TABLE COLUMN HEADERS
   - font_size: 10
   - font_color: @000000@
   - background_color: @F0EFE8@
   - is_bold: true
   - is_italic: false
   - horizontal_alignment: @left@
   - vertical_alignment: @center@
   - border_top: @thin@, border_bottom: @thin@, border_left: @thin@, border_right: @thin@
   - border_color: @000000@

PRIORITY 4 — FIELD VALUES (column B in key-value rows)
   - font_size: 10
   - font_color: @000000@
   - background_color: null (no fill)
   - is_bold: false
   - is_italic: false
   - horizontal_alignment: @left@ for strings/dates, @right@ for numbers
   - vertical_alignment: @center@
   - border_top: @thin@, border_bottom: @thin@, border_left: @thin@, border_right: @thin@
   - border_color: @D3D3D3@

PRIORITY 5 — TABLE DATA CELLS (lowest priority)
   - font_size: 10
   - font_color: @000000@
   - background_color: null (no fill)
   - is_bold: false
   - is_italic: false
   - horizontal_alignment: @left@ for text/dates, @right@ for numeric columns
   - vertical_alignment: @center@
   - border_top: @thin@, border_bottom: @thin@, border_left: @thin@, border_right: @thin@
   - border_color: @D3D3D3@

ADDITIONAL STYLING NOTES:
- For Number and currency data_type values, use @right@ horizontal_alignment.
- For Date data_type values, use @center@ horizontal_alignment.
- Use consistent colors across the entire sheet — do NOT vary colors per row.
- All hex colors must be exactly 6 characters (no # prefix).
- border_top/bottom/left/right must be one of: @thin@, @medium@, @thick@, or @none@.
- border_color is a single 6-char hex color applied to all four sides of the cell.
- Every cell MUST include all 5 border fields (border_top, border_bottom, border_left, border_right, border_color).

────────────────────────
OUTPUT REQUIREMENTS
────────────────────────

- Output MUST be raw, valid JSON only.
- DO NOT wrap in ```json or any code fences.
- DO NOT include markdown, comments, or explanations.
- The first character MUST be @{@ and the last MUST be @}@.
- Sheet names must NOT contain special characters (use only alphanumeric and spaces).
- cell_value must be a string or number — no nested objects.
- Numeric values should remain as numbers (not stringified).
- Date values should remain as strings in their original format.
- Every cell object MUST include all 12 styling fields (7 original + 5 border fields).
- background_color can be null for cells with no fill.
- Output must be deterministic and repeatable.
- Do NOT invent or fabricate data that is not present in the input.
- If a field's value is null, use an empty string @@.
".

Section Prompt.

(** [encode] of [py_toon_format], which is not part of the repository. *)
Variable encode : object -> str.

Definition load_prompt (input_data : object) : result str :=
  if negb (truthy input_data)
  then Raise (ValueError "Input data is empty")
  else
    let input_toon := encode input_data in
    Ok (prompt_head ++ input_toon ++ prompt_tail).

End Prompt.

(** How [main] ends: it returns, or an exception leaves it;
    [InputNotFound] is the [FileNotFoundError] that [main] raises itself. *)
Inductive ending : Type :=
| Finished
| Failed (e : exn)
| InputNotFound.

Definition input_json_path : str := "testing_jsons/testing_json_1.json".

Section Program.

Context `{Openpyxl}.
Variable encode : object -> str.

(** [main] as a whole, with the text files it can read beside the
    world: the input file is looked up and decoded, the prompt is built
    and the rest is [main] from the prompt on. *)
Definition run_main (texts : gmap str str) (w : World) : ending * World :=
  match texts !! input_json_path with
  | None => (InputNotFound, w)
  | Some text =>
      match json.loads text with
      | None => (Failed JSONDecodeError, w)
      | Some input_data =>
          match load_prompt encode input_data with
          | Raise e => (Failed e, w)
          | Ok prompt =>
              match main w prompt with
              | (Ok _, w') => (Finished, w')
              | (Raise e, w') => (Failed e, w')
              end
          end
      end
  end.

End Program.

(** ** More sample records and worlds *)

Definition at_zero : dict :=
  [(py "cell_coordinate", VInt 0); (py "cell_value", VInt 9)].

Definition at_B2 : dict :=
  [(py "cell_coordinate", VStr "B2"); (py "cell_value", VInt 5)].

Definition filled_A1 : dict :=
  [(py "cell_coordinate", VStr "A1"); (py "cell_value", VInt 1);
   (py "background_color", VStr "FFD2BF")].

(** A world whose model answers every prompt with the empty object. *)
Definition empty_reply_world : World := {|
  environ := [(py "GEMINI_API_KEY", py "secret")];
  model _ _ := py "{}";
  sent := [];
  files := ∅
|}.

(** An encoder for the samples: a text stands for itself. *)
Definition sample_encode (v : object) : str :=
  match v with
  | VStr s => s
  | _ => py "data"
  end.

Definition sample_texts : gmap str str :=
  {[ input_json_path := dq "'statement'" ]}.

(** * Properties *)

(** ** Truth values *)

(** A float is falsy when it rounds to zero, whatever its digits. *)
Example truthy_floats :
  map (fun lexeme => truthy (VFloat lexeme))
    [py "0.0"; py "-0.0"; py "1e-400"; py "2.47e-324"; py "2.5e-324";
     py "5e-324"; py "1E5"; py "NaN"]
  = [false; false; false; false; true; true; true; true].
Proof. vm_compute. reflexivity. Qed.

Example truthy_objects :
  map truthy [VNone; VBool false; VInt 0; VStr []; VList []; VDict [];
              VInt (-1); VStr "0"; VList [VNone]]
  = [false; false; false; false; false; false; true; true; true].
Proof. reflexivity. Qed.

(** ** Text operations *)

Example strip_example :
  Text.strip (py "  ```json" ++ [chr 10] ++ py "{}" ++ [chr 10; chr 9]) =
  py "```json" ++ [chr 10] ++ py "{}".
Proof. vm_compute. reflexivity. Qed.

Example strip_nbsp :
  Text.strip (Text.bytes [194; 160; 123; 125; 226; 128; 131]) = py "{}".
Proof. vm_compute. reflexivity. Qed.

Example find_example : Text.find "{" (py "ab{c{d}e}f") = 2.
Proof. reflexivity. Qed.

Example rfind_example : Text.rfind "}" (py "ab{c{d}e}f") = 8.
Proof. reflexivity. Qed.

Example slice_example : Text.slice (py "ab{c{d}e}f") 2 9 = py "{c{d}e}".
Proof. reflexivity. Qed.

Example slice_crossed : Text.slice (py "}{") 1 1 = [].
Proof. reflexivity. Qed.

Section TextFacts.

Implicit Types (c : ascii) (s t x y : str).

Lemma ascii_eqb_true a b : ascii_eqb a b = true <-> a = b.
Proof. apply Ascii.eqb_eq. Qed.

Lemma ascii_eqb_false a b : ascii_eqb a b = false <-> a <> b.
Proof. apply Ascii.eqb_neq. Qed.

Lemma len_app {A} (l1 l2 : list A) : len (l1 ++ l2) = len l1 + len l2.
Proof. unfold len. rewrite length_app. lia. Qed.

Lemma len_nonneg {A} (l : list A) : 0 <= len l.
Proof. unfold len. lia. Qed.

Lemma startswith_app p s : Text.startswith p s = true <-> exists r, s = p ++ r.
Proof.
  revert s. induction p as [|a p IH]; intros s; simpl.
  - split; eauto.
  - destruct s as [|b s].
    + split; [discriminate | intros [r Hr]; discriminate].
    + rewrite andb_true_iff, ascii_eqb_true, IH. split.
      * intros [-> [r ->]]. eauto.
      * intros [r Hr]. injection Hr as -> ->. eauto.
Qed.

Lemma endswith_app p s : Text.endswith p s = true <-> exists r, s = r ++ p.
Proof.
  unfold Text.endswith. rewrite startswith_app. split.
  - intros [r Hr]. exists (rev r).
    rewrite <- (rev_involutive s), Hr, rev_app_distr, rev_involutive.
    reflexivity.
  - intros [r ->]. exists (rev r). apply rev_app_distr.
Qed.

Lemma find_bounds c s : -1 <= Text.find c s <= len s - 1.
Proof.
  induction s as [|a s IH]; simpl; [unfold len; simpl; lia|].
  unfold len in *. simpl length.
  destruct (ascii_eqb a c); [lia|].
  destruct (Z.eqb_spec (Text.find c s) (-1)); lia.
Qed.

Lemma rfind_bounds c s : -1 <= Text.rfind c s <= len s - 1.
Proof.
  induction s as [|a s IH]; simpl; [unfold len; simpl; lia|].
  unfold len in *. simpl length.
  destruct (Z.eqb_spec (Text.rfind c s) (-1)); simpl.
  - destruct (ascii_eqb a c); lia.
  - lia.
Qed.

Lemma find_absent c s : Text.find c s = -1 <-> c ∉ s.
Proof.
  induction s as [|a s IH]; simpl.
  - split; [intros _; apply not_elem_of_nil | reflexivity].
  - rewrite not_elem_of_cons. destruct (ascii_eqb a c) eqn:E.
    + apply ascii_eqb_true in E. split; [discriminate | intros [? _]; congruence].
    + apply ascii_eqb_false in E. pose proof (find_bounds c s).
      destruct (Z.eqb_spec (Text.find c s) (-1)) as [e|n].
      * split; [intros _; split; [congruence | apply IH, e] | reflexivity].
      * split; [lia | intros [_ ?]; exfalso; apply n, IH; assumption].
Qed.

Lemma rfind_absent c s : Text.rfind c s = -1 <-> c ∉ s.
Proof.
  induction s as [|a s IH]; simpl.
  - split; [intros _; apply not_elem_of_nil | reflexivity].
  - rewrite not_elem_of_cons. pose proof (rfind_bounds c s).
    destruct (Z.eqb_spec (Text.rfind c s) (-1)) as [e|n]; simpl.
    + destruct (ascii_eqb a c) eqn:E.
      * apply ascii_eqb_true in E. split; [discriminate | intros [? _]; congruence].
      * apply ascii_eqb_false in E.
        split; [intros _; split; [congruence | apply IH, e] | reflexivity].
    + split; [lia | intros [_ ?]; exfalso; apply n, IH; assumption].
Qed.

Lemma find_app_l c x s :
  c ∉ x ->
  Text.find c (x ++ s) =
    if Text.find c s =? -1 then -1 else len x + Text.find c s.
Proof.
  induction x as [|a x IH]; intros Hx; simpl.
  - unfold len; simpl. destruct (Z.eqb_spec (Text.find c s) (-1)); lia.
  - apply not_elem_of_cons in Hx as [Ha Hx].
    assert (ascii_eqb a c = false) as -> by (apply ascii_eqb_false; congruence).
    rewrite (IH Hx). unfold len; simpl length.
    destruct (Z.eqb_spec (Text.find c s) (-1)); simpl; [reflexivity|].
    pose proof (find_bounds c s).
    destruct (Z.eqb_spec (Z.of_nat (length x) + Text.find c s) (-1)); lia.
Qed.

Lemma rfind_app_l c x s :
  c ∉ x ->
  Text.rfind c (x ++ s) =
    if Text.rfind c s =? -1 then -1 else len x + Text.rfind c s.
Proof.
  induction x as [|a x IH]; intros Hx; simpl.
  - unfold len; simpl. destruct (Z.eqb_spec (Text.rfind c s) (-1)); lia.
  - apply not_elem_of_cons in Hx as [Ha Hx].
    assert (ascii_eqb a c = false) as -> by (apply ascii_eqb_false; congruence).
    rewrite (IH Hx). unfold len; simpl length.
    pose proof (rfind_bounds c s).
    destruct (Z.eqb_spec (Text.rfind c s) (-1)); simpl; [reflexivity|].
    destruct (Z.eqb_spec (Z.of_nat (length x) + Text.rfind c s) (-1)); simpl; lia.
Qed.

Lemma find_app_r c s y : c ∉ y -> Text.find c (s ++ y) = Text.find c s.
Proof.
  intros Hy. induction s as [|a s IH]; simpl.
  - apply find_absent, Hy.
  - rewrite IH. reflexivity.
Qed.

Lemma rfind_app_r c s y : c ∉ y -> Text.rfind c (s ++ y) = Text.rfind c s.
Proof.
  intros Hy. induction s as [|a s IH]; simpl.
  - apply rfind_absent, Hy.
  - rewrite IH. reflexivity.
Qed.

Lemma bound_nonneg n i : 0 <= i -> Text.bound n i = Z.min i n.
Proof. intros Hi. unfold Text.bound. destruct (Z.ltb_spec i 0); [lia | reflexivity]. Qed.

Lemma slice_nonneg s i j :
  0 <= i -> 0 <= j ->
  Text.slice s i j =
    firstn (Z.to_nat (Z.min j (len s) - Z.min i (len s)))
           (skipn (Z.to_nat (Z.min i (len s))) s).
Proof. intros Hi Hj. unfold Text.slice. rewrite !bound_nonneg by assumption. reflexivity. Qed.

Lemma skipn_len_app x s k :
  0 <= k -> skipn (Z.to_nat (len x + k)) (x ++ s) = skipn (Z.to_nat k) s.
Proof.
  intros Hk. unfold len.
  replace (Z.to_nat (Z.of_nat (length x) + k)) with (length x + Z.to_nat k)%nat by lia.
  rewrite skipn_app, skipn_all2 by lia.
  replace (length x + Z.to_nat k - length x)%nat with (Z.to_nat k) by lia.
  reflexivity.
Qed.

Lemma slice_app_l x s i j :
  0 <= i -> 0 <= j ->
  Text.slice (x ++ s) (len x + i) (len x + j) = Text.slice s i j.
Proof.
  intros Hi Hj. pose proof (len_nonneg x). pose proof (len_nonneg s).
  rewrite !slice_nonneg by lia. rewrite len_app.
  replace (Z.min (len x + i) (len x + len s)) with (len x + Z.min i (len s)) by lia.
  replace (Z.min (len x + j) (len x + len s)) with (len x + Z.min j (len s)) by lia.
  rewrite skipn_len_app by lia. f_equal. lia.
Qed.

Lemma slice_app_r s y i j :
  0 <= i <= len s -> 0 <= j <= len s ->
  Text.slice (s ++ y) i j = Text.slice s i j.
Proof.
  intros Hi Hj. pose proof (len_nonneg y).
  rewrite !slice_nonneg by lia. rewrite len_app.
  replace (Z.min i (len s + len y)) with i by lia.
  replace (Z.min j (len s + len y)) with j by lia.
  replace (Z.min i (len s)) with i by lia.
  replace (Z.min j (len s)) with j by lia.
  unfold len in *.
  rewrite skipn_app, firstn_app, length_skipn.
  replace (Z.to_nat (j - i) - (length s - Z.to_nat i))%nat with 0%nat by lia.
  simpl. apply app_nil_r.
Qed.

Lemma slice_whole s : Text.slice s 0 (len s) = s.
Proof.
  pose proof (len_nonneg s). rewrite slice_nonneg by lia.
  rewrite Z.min_id. replace (Z.min 0 (len s)) with 0 by lia.
  simpl. rewrite Z.sub_0_r. unfold len. rewrite Nat2Z.id. apply firstn_all.
Qed.

(** Characters that are no braces, before or after a text, do not
    change what is extracted from it. *)
Lemma extract_app_l x s :
  "{"%char ∉ x -> "}"%char ∉ x -> extract (x ++ s) = extract s.
Proof.
  intros Ho Hc. unfold extract.
  rewrite (find_app_l _ _ _ Ho), (rfind_app_l _ _ _ Hc).
  pose proof (find_bounds "{" s). pose proof (rfind_bounds "}" s).
  pose proof (len_nonneg x).
  destruct (Z.eqb_spec (Text.find "{" s) (-1)) as [e1|n1]; simpl; [reflexivity|].
  destruct (Z.eqb_spec (Text.rfind "}" s) (-1)) as [e2|n2]; simpl.
  - rewrite orb_true_r. reflexivity.
  - destruct (Z.eqb_spec (len x + Text.find "{" s) (-1)); [lia|].
    destruct (Z.eqb_spec (len x + Text.rfind "}" s) (-1)); [lia|]. simpl.
    rewrite <- Z.add_assoc, slice_app_l by lia. reflexivity.
Qed.

Lemma extract_app_r s y :
  "{"%char ∉ y -> "}"%char ∉ y -> extract (s ++ y) = extract s.
Proof.
  intros Ho Hc. unfold extract.
  rewrite (find_app_r _ _ _ Ho), (rfind_app_r _ _ _ Hc).
  pose proof (find_bounds "{" s). pose proof (rfind_bounds "}" s).
  destruct (Z.eqb_spec (Text.find "{" s) (-1)) as [e1|n1]; simpl; [reflexivity|].
  destruct (Z.eqb_spec (Text.rfind "}" s) (-1)) as [e2|n2]; simpl; [reflexivity|].
  rewrite slice_app_r by lia. reflexivity.
Qed.

Lemma braceless_app x y : braceless (x ++ y) = braceless x && braceless y.
Proof. apply forallb_app. Qed.

Lemma braceless_rev x : braceless (rev x) = braceless x.
Proof.
  induction x as [|a x IH]; [reflexivity|]. simpl rev.
  rewrite braceless_app, IH. simpl. rewrite andb_true_r. apply andb_comm.
Qed.

Lemma braceless_notin x :
  braceless x = true -> ("{"%char ∉ x) /\ ("}"%char ∉ x).
Proof.
  induction x as [|a x IH]; simpl.
  - intros _. split; apply not_elem_of_nil.
  - rewrite andb_true_iff, negb_true_iff. unfold is_brace.
    rewrite orb_false_iff, !ascii_eqb_false. intros [[H1 H2] Hx].
    destruct (IH Hx).
    split; apply not_elem_of_cons; (split; [apply not_eq_sym|]; assumption).
Qed.

Lemma extract_trim x s y :
  braceless x = true -> braceless y = true -> extract (x ++ s ++ y) = extract s.
Proof.
  intros [? ?]%braceless_notin [? ?]%braceless_notin.
  rewrite extract_app_l, extract_app_r; auto.
Qed.

Lemma whitespace_braceless : forallb braceless Text.whitespace = true.
Proof. vm_compute. reflexivity. Qed.

Lemma whitespace_rev_braceless :
  forallb braceless (map (@rev ascii) Text.whitespace) = true.
Proof. vm_compute. reflexivity. Qed.

Lemma eat_some ws s s' :
  forallb braceless ws = true -> Text.eat ws s = Some s' ->
  exists w, braceless w = true /\ s = w ++ s'.
Proof.
  induction ws as [|w ws IH]; simpl; [discriminate|].
  rewrite andb_true_iff. intros [Hw Hws].
  destruct (Text.startswith w s) eqn:E.
  - intros [= <-]. apply startswith_app in E as [r ->].
    exists w. split; [assumption|]. rewrite skipn_app, skipn_all, Nat.sub_diag. reflexivity.
  - auto.
Qed.

Lemma eat_all_prefix ws n s :
  forallb braceless ws = true ->
  exists x, braceless x = true /\ s = x ++ Text.eat_all ws n s.
Proof.
  intros Hws. revert s. induction n as [|n IH]; intros s; simpl.
  - exists []. auto.
  - destruct (Text.eat ws s) as [s'|] eqn:E; [|exists []; auto].
    destruct (eat_some _ _ _ Hws E) as (w & Hw & ->).
    destruct (IH s') as (x & Hx & Hs').
    exists (w ++ x). rewrite braceless_app, Hw, Hx. split; [reflexivity|].
    rewrite <- app_assoc, <- Hs'. reflexivity.
Qed.

Lemma eat_shorter ws s s' :
  forallb (fun w => negb (bool_decide (w = []))) ws = true ->
  Text.eat ws s = Some s' -> (length s' < length s)%nat.
Proof.
  induction ws as [|w ws IH]; simpl; [discriminate|].
  rewrite andb_true_iff, negb_true_iff, bool_decide_eq_false. intros [Hw Hws].
  destruct (Text.startswith w s) eqn:E; [|auto].
  intros [= <-]. apply startswith_app in E as [r ->].
  rewrite skipn_app, skipn_all, Nat.sub_diag. change (skipn 0 r) with r.
  rewrite !length_app. destruct w; [contradiction | simpl; lia].
Qed.

(** The fuel of [lstrip] and [rstrip] is enough: no white space is left
    where they stop. *)
Lemma eat_all_complete ws n s :
  forallb (fun w => negb (bool_decide (w = []))) ws = true ->
  (length s <= n)%nat ->
  Text.eat ws (Text.eat_all ws n s) = None.
Proof.
  intros Hws. revert s. induction n as [|n IH]; intros s Hn; simpl.
  - destruct s; [|simpl in Hn; lia].
    clear Hn. induction ws as [|w ws IHws]; [reflexivity|].
    simpl in Hws. apply andb_true_iff in Hws as [Hw Hws].
    apply negb_true_iff, bool_decide_eq_false in Hw.
    simpl. destruct w; [contradiction|]. simpl. auto.
  - destruct (Text.eat ws s) as [s'|] eqn:E; [|exact E].
    apply IH. pose proof (eat_shorter _ _ _ Hws E). lia.
Qed.

Lemma lstrip_complete s : Text.eat Text.whitespace (Text.lstrip s) = None.
Proof. apply eat_all_complete; [vm_compute; reflexivity | reflexivity]. Qed.

Lemma rstrip_complete s :
  Text.eat (map (@rev ascii) Text.whitespace) (rev (Text.rstrip s)) = None.
Proof.
  unfold Text.rstrip. rewrite rev_involutive.
  apply eat_all_complete; [vm_compute; reflexivity | rewrite length_rev; reflexivity].
Qed.

Lemma lstrip_prefix s :
  exists x, braceless x = true /\ s = x ++ Text.lstrip s.
Proof. apply eat_all_prefix, whitespace_braceless. Qed.

Lemma rstrip_suffix s :
  exists y, braceless y = true /\ s = Text.rstrip s ++ y.
Proof.
  unfold Text.rstrip.
  destruct (eat_all_prefix _ (length s) (rev s) whitespace_rev_braceless)
    as (x & Hx & Hs).
  exists (rev x). rewrite braceless_rev. split; [assumption|].
  rewrite <- rev_app_distr, <- Hs, rev_involutive. reflexivity.
Qed.

Lemma extract_strip s : extract (Text.strip s) = extract s.
Proof.
  unfold Text.strip.
  destruct (lstrip_prefix s) as (x & Hx & Hs).
  destruct (rstrip_suffix (Text.lstrip s)) as (y & Hy & Hl).
  rewrite Hs at 2. rewrite Hl at 2. symmetry. apply extract_trim; assumption.
Qed.

Lemma letter_no_brace c : Text.is_letter c = true -> is_brace c = false.
Proof. destruct c as [[] [] [] [] [] [] [] []]; vm_compute; congruence. Qed.

Lemma drop_while_letters s :
  exists x, braceless x = true /\ s = x ++ Text.drop_while Text.is_letter s.
Proof.
  induction s as [|c s (x & Hx & IH)]; simpl.
  - exists []. auto.
  - destruct (Text.is_letter c) eqn:E; [|exists []; auto].
    exists (c :: x). simpl. rewrite (letter_no_brace _ E), Hx. simpl.
    split; [reflexivity | congruence].
Qed.

Lemma extract_sub_leading_fence s :
  extract (Text.sub_leading_fence s) = extract s.
Proof.
  unfold Text.sub_leading_fence.
  destruct (Text.startswith Text.fence s) eqn:E; [|reflexivity].
  apply startswith_app in E as [r ->].
  change (skipn 3 (Text.fence ++ r)) with r.
  destruct (drop_while_letters r) as (x & Hx & Hr).
  rewrite Hr at 2. rewrite app_assoc.
  rewrite <- (app_nil_r (Text.drop_while Text.is_letter r)) at 2.
  symmetry. apply extract_trim; [|reflexivity].
  rewrite braceless_app, Hx. reflexivity.
Qed.

Lemma extract_sub_trailing_fence s :
  extract (Text.sub_trailing_fence s) = extract s.
Proof.
  unfold Text.sub_trailing_fence.
  destruct (Text.endswith Text.fence s) eqn:E.
  - apply endswith_app in E as [r ->].
    rewrite rev_app_distr. change (skipn 3 (rev Text.fence ++ rev r)) with (rev r).
    rewrite rev_involutive. symmetry.
    apply (extract_trim [] r Text.fence); reflexivity.
  - destruct (Text.endswith (Text.fence ++ [chr 10]) s) eqn:E'; [|reflexivity].
    apply endswith_app in E' as [r ->].
    rewrite rev_app_distr.
    change (skipn 4 (rev (Text.fence ++ [chr 10]) ++ rev r)) with (rev r).
    change (rev (chr 10 :: rev r)) with (rev (rev r) ++ [chr 10]).
    rewrite rev_involutive.
    transitivity (extract r).
    + apply (extract_trim [] r [chr 10]); reflexivity.
    + symmetry. apply (extract_trim [] r (Text.fence ++ [chr 10])); reflexivity.
Qed.

Lemma find_app_found c s y :
  Text.find c s <> -1 -> Text.find c (s ++ y) = Text.find c s.
Proof.
  induction s as [|a s IH]; simpl; [congruence|].
  destruct (ascii_eqb a c); [reflexivity|].
  destruct (Z.eqb_spec (Text.find c s) (-1)); [congruence|].
  intros _. rewrite IH by assumption.
  destruct (Z.eqb_spec (Text.find c s) (-1)); congruence.
Qed.

Lemma rfind_app_found c x s :
  Text.rfind c s <> -1 -> Text.rfind c (x ++ s) = len x + Text.rfind c s.
Proof.
  intros Hs. pose proof (rfind_bounds c s).
  induction x as [|a x IH]; simpl.
  - unfold len. simpl. lia.
  - rewrite IH. unfold len. simpl length.
    destruct (Z.eqb_spec (Z.of_nat (length x) + Text.rfind c s) (-1)); simpl; lia.
Qed.

(** Text before the first opening brace and after the last closing
    brace does not change what is extracted. *)
Lemma extract_outside pre s post :
  "{"%char ∈ s -> "}"%char ∈ s -> "{"%char ∉ pre -> "}"%char ∉ post ->
  extract (pre ++ s ++ post) = extract s.
Proof.
  intros Ho Hc Hpre Hpost.
  assert (Text.find "{" s <> -1) as Hf by (rewrite find_absent; auto).
  assert (Text.rfind "}" s <> -1) as Hr by (rewrite rfind_absent; auto).
  pose proof (find_bounds "{" s). pose proof (rfind_bounds "}" s).
  pose proof (len_nonneg pre).
  unfold extract.
  rewrite (find_app_l _ _ _ Hpre), (find_app_found _ _ _ Hf).
  rewrite rfind_app_found; rewrite (rfind_app_r _ _ _ Hpost); [|assumption].
  destruct (Z.eqb_spec (Text.find "{" s) (-1)); [contradiction|].
  destruct (Z.eqb_spec (Text.rfind "}" s) (-1)); [contradiction|].
  destruct (Z.eqb_spec (len pre + Text.find "{" s) (-1)); [lia|].
  destruct (Z.eqb_spec (len pre + Text.rfind "}" s) (-1)); [lia|]. simpl.
  rewrite <- Z.add_assoc, slice_app_l, slice_app_r by lia. reflexivity.
Qed.

(** What [parse_llm_json] does before it looks for the braces changes
    nothing between the braces: its result is the decoding of the text
    extracted from the raw text. *)
Lemma parse_llm_json_extract raw_text :
  parse_llm_json raw_text =
    match extract raw_text with
    | None => Raise NoJsonObjectFound
    | Some text => decoded text
    end.
Proof.
  unfold parse_llm_json.
  set (text := if Text.startswith Text.fence (Text.strip raw_text) then _ else _).
  assert (extract text = extract raw_text) as <-.
  { subst text. destruct (Text.startswith _ _).
    - rewrite extract_strip, extract_sub_trailing_fence,
        extract_sub_leading_fence, extract_strip. reflexivity.
    - apply extract_strip. }
  unfold extract. cbv zeta.
  destruct (_ || _); reflexivity.
Qed.

End TextFacts.

(** ** The JSON decoder *)

Example loads_example :
  json.loads (dq "{'a': 'x\u00e9\n', 'b': [1, -2.50e+3, true, null], 'a': {}}")
  = Some (VDict [(py "a", VDict []);
                 (py "b", VList [VInt 1; VFloat "-2.50e+3"; VBool true; VNone])]).
Proof. vm_compute. reflexivity. Qed.

Example loads_escapes :
  json.loads (dq "'x\u00e9\ud83d\ude00\n'")
  = Some (VStr (Text.bytes [120; 195; 169; 240; 159; 152; 128; 10])).
Proof. vm_compute. reflexivity. Qed.

Example loads_rejects :
  map json.loads [py "{{}"; py "[1, 2,]"; py "01"; py "1.e3"; py "{} x"; []]
  = [None; None; None; None; None; None].
Proof. vm_compute. reflexivity. Qed.

Section JsonFacts.

Implicit Types (c : ascii) (s t rest : str) (v : object).

Lemma drop_while_suffix f s : Text.drop_while f s `suffix_of` s.
Proof.
  induction s as [|c s IH]; simpl; [reflexivity|].
  destruct (f c); [apply suffix_cons_r, IH | reflexivity].
Qed.

Lemma skip_suffix s : json.skip s `suffix_of` s.
Proof. apply drop_while_suffix. Qed.

Lemma skip_cons s c t :
  json.skip s = c :: t -> t `suffix_of` s /\ (length t < length s)%nat.
Proof.
  intros Hs. pose proof (skip_suffix s) as Hsuf. rewrite Hs in Hsuf.
  split; [apply suffix_cons_l in Hsuf; exact Hsuf|].
  apply suffix_length in Hsuf. simpl in Hsuf. lia.
Qed.

Lemma after_cons rest c s : rest `suffix_of` s -> after rest (c :: s).
Proof.
  intros Hs. split; [apply suffix_cons_r, Hs|].
  apply suffix_length in Hs. simpl. lia.
Qed.

Lemma after_suffix rest s s' : after rest s -> s `suffix_of` s' -> after rest s'.
Proof.
  intros [Hs Hl] Hs'. split; [etrans; eassumption|].
  apply suffix_length in Hs'. lia.
Qed.

Lemma prepend_some p r x rest :
  json.prepend p r = Some (x, rest) -> exists y, r = Some (y, rest).
Proof.
  destruct r as [[y rest']|]; simpl; [|discriminate]. intros [= _ ->]. eauto.
Qed.

Lemma skipn_suffix_n {A} (l : list A) n : skipn n l `suffix_of` l.
Proof. apply suffix_drop. Qed.

Lemma scanstring_after s x rest :
  json.scanstring s = Some (x, rest) -> after rest s.
Proof.
  remember (length s) as n eqn:Hn. revert s x rest Hn.
  induction n as [n IH] using lt_wf_ind. intros s x rest Hn.
  assert (forall t p y, t `suffix_of` s -> (length t < length s)%nat ->
            json.prepend p (json.scanstring t) = Some (y, rest) -> after rest s)
    as Hrec.
  { intros t p y Hsuf Hlen (z & Hz)%prepend_some.
    destruct (IH (length t) ltac:(lia) t z rest eq_refl Hz) as [H1 H2].
    split; [etrans; eassumption | lia]. }
  destruct s as [|c s1]; [discriminate|]. cbn [json.scanstring].
  destruct (ascii_eqb c quote).
  { intros [= _ <-]. apply after_cons. reflexivity. }
  destruct (ascii_eqb c "\").
  - destruct s1 as [|e s2]; [discriminate|].
    destruct (ascii_eqb e "u").
    + destruct s2 as [|h1 [|h2 [|h3 [|h4 s3]]]]; try discriminate.
      destruct (json.hex4 h1 h2 h3 h4); [|discriminate].
      assert (s3 `suffix_of` c :: e :: h1 :: h2 :: h3 :: h4 :: s3) as Hs3
        by (do 6 apply suffix_cons_r; reflexivity).
      destruct s3 as [|a1 [|a2 [|a3 [|a4 [|a5 [|a6 s4]]]]]];
        try (apply Hrec; [exact Hs3 | simpl; lia]).
      destruct (json.low_surrogate _) as [[lo ?]|];
        [destruct (json.is_high_surrogate _)|];
        try (apply Hrec; [exact Hs3 | simpl; lia]).
      apply Hrec; [do 12 apply suffix_cons_r; reflexivity | simpl; lia].
    + destruct (json.escape e); [|discriminate].
      apply Hrec; [do 2 apply suffix_cons_r; reflexivity | simpl; lia].
  - destruct (ord c <? 32); [discriminate|].
    apply Hrec; [apply suffix_cons_r; reflexivity | simpl; lia].
Qed.


Lemma digits_suffix s d r : json.digits s = (d, r) -> r `suffix_of` s.
Proof.
  revert d r. induction s as [|c s IH]; intros d r; simpl.
  - intros [= _ <-]. reflexivity.
  - destruct (is_digit c); [|intros [= _ <-]; reflexivity].
    destruct (json.digits s) as [d' r'] eqn:E. intros [= _ <-].
    apply suffix_cons_r, (IH _ _ eq_refl).
Qed.

Lemma integer_part_after s i r : json.integer_part s = Some (i, r) -> after r s.
Proof.
  destruct s as [|c s]; [discriminate|]. simpl.
  destruct (ascii_eqb c "0"); [intros [= _ <-]; apply after_cons; reflexivity|].
  destruct (is_digit c); [|discriminate].
  destruct (json.digits s) as [d r'] eqn:E. intros [= _ <-].
  apply after_cons, (digits_suffix _ _ _ E).
Qed.

Lemma fraction_part_suffix s f r : json.fraction_part s = (f, r) -> r `suffix_of` s.
Proof.
  destruct s as [|c s]; simpl; [intros [= _ <-]; reflexivity|].
  destruct (ascii_eqb c "."); [|intros [= _ <-]; reflexivity].
  destruct (json.digits s) as [[|d ds] r'] eqn:E; intros [= _ <-];
    [reflexivity | apply suffix_cons_r, (digits_suffix _ _ _ E)].
Qed.

Lemma exponent_part_suffix s e r : json.exponent_part s = (e, r) -> r `suffix_of` s.
Proof.
  destruct s as [|c s]; simpl; [intros [= _ <-]; reflexivity|].
  destruct (is_exponent_mark c); [|intros [= _ <-]; reflexivity].
  destruct s as [|g s']; [intros [= _ <-]; reflexivity|].
  destruct (_ || _).
  - destruct (json.digits s') as [[|d ds] r'] eqn:E; intros [= _ <-];
      [reflexivity | do 2 apply suffix_cons_r; apply (digits_suffix _ _ _ E)].
  - destruct (json.digits (g :: s')) as [[|d ds] r'] eqn:E; intros [= _ <-];
      [reflexivity | apply suffix_cons_r, (digits_suffix _ _ _ E)].
Qed.

Lemma match_number_after s v rest :
  json.match_number s = json.Match v rest -> after rest s /\ atomic v.
Proof.
  unfold json.match_number.
  set (signed := match s with [] => _ | _ :: _ => _ end).
  assert (snd signed `suffix_of` s) as Hsign.
  { subst signed. destruct s as [|c s]; [reflexivity|].
    destruct (ascii_eqb c "-"); [apply suffix_cons_r|]; reflexivity. }
  destruct signed as [sign s0]. simpl in Hsign.
  destruct (json.integer_part s0) as [[i s1]|] eqn:Ei; [|discriminate].
  destruct (json.fraction_part s1) as [f s2] eqn:Ef.
  destruct (json.exponent_part s2) as [e s3] eqn:Ee.
  apply integer_part_after in Ei. apply fraction_part_suffix in Ef.
  apply exponent_part_suffix in Ee.
  assert (after s3 s) as Hafter.
  { apply after_suffix with (s := s0); [|exact Hsign].
    destruct Ei as [H1 H2].
    split; [etrans; [exact Ee|]; etrans; [exact Ef|]; exact H1|].
    apply suffix_length in Ef, Ee. lia. }
  destruct f, e; intros [= <- <-]; split; solve [exact Hafter | exact I].
Qed.

Lemma constant_after name w s r :
  name <> [] -> json.constant name w s = Some r ->
  exists rest, r = json.Match w rest /\ after rest s.
Proof.
  intros Hname. unfold json.constant.
  destruct (Text.startswith name s) eqn:E; [|discriminate].
  intros [= <-]. eexists. split; [reflexivity|].
  apply startswith_app in E as [t ->].
  split; [apply suffix_drop|].
  rewrite skipn_app, skipn_all, Nat.sub_diag. change (skipn 0 t) with t.
  rewrite !length_app. destruct name; [contradiction | simpl; lia].
Qed.

Lemma scan_atom_after s v rest :
  json.scan_atom s = json.Match v rest -> after rest s /\ atomic v.
Proof.
  unfold json.scan_atom.
  repeat match goal with
  | |- context [json.constant ?name ?w s] =>
      let E := fresh "E" in
      destruct (json.constant name w s) as [r|] eqn:E;
        [ apply constant_after in E as (rest' & -> & Hafter); [|discriminate];
          intros [= <- <-]; split; [exact Hafter | exact I] | ]
  end.
  apply match_number_after.
Qed.

(** Whatever the fuel, a value that was read was read from the head of
    the text, and at least one character of it. *)
Lemma scan_after fuel :
  (forall s v rest, json.scan_once fuel s = json.Match v rest -> after rest s)
  /\ (forall pairs s v rest,
        json.parse_object fuel pairs s = json.Match v rest -> after rest s)
  /\ (forall values s v rest,
        json.parse_array fuel values s = json.Match v rest -> after rest s).
Proof.
  induction fuel as [|fuel (IHv & IHo & IHa)];
    [repeat split; intros; discriminate|].
  split; [|split].
  - intros s v rest. cbn [json.scan_once].
    destruct s as [|c s1]; [discriminate|].
    destruct (ascii_eqb c quote).
    { destruct (json.scanstring s1) as [[x r]|] eqn:E; [|discriminate].
      intros [= _ <-]. apply scanstring_after in E as [? ?].
      split; [apply suffix_cons_r; assumption | simpl; lia]. }
    destruct (ascii_eqb c "{").
    { destruct (json.skip s1) as [|c' r] eqn:E; [discriminate|].
      destruct (skip_cons _ _ _ E) as [Hr Hl].
      destruct (ascii_eqb c' "}").
      - intros [= _ <-]. split; [apply suffix_cons_r, Hr | simpl; lia].
      - intros [H1 H2]%IHo.
        split; [apply suffix_cons_r; etrans; [exact H1|]; rewrite <- E; apply skip_suffix|].
        simpl in *. lia. }
    destruct (ascii_eqb c "[").
    { destruct (json.skip s1) as [|c' r] eqn:E; [discriminate|].
      destruct (skip_cons _ _ _ E) as [Hr Hl].
      destruct (ascii_eqb c' "]").
      - intros [= _ <-]. split; [apply suffix_cons_r, Hr | simpl; lia].
      - intros [H1 H2]%IHa.
        split; [apply suffix_cons_r; etrans; [exact H1|]; rewrite <- E; apply skip_suffix|].
        simpl in *. lia. }
    intros Hv. apply (scan_atom_after _ _ _ Hv).
  - intros pairs s v rest. cbn [json.parse_object].
    destruct s as [|q s1]; [discriminate|].
    destruct (ascii_eqb q quote); [|discriminate].
    destruct (json.scanstring s1) as [[key s2]|] eqn:Ek; [|discriminate].
    destruct (json.skip s2) as [|colon s3] eqn:Ec; [discriminate|].
    destruct (ascii_eqb colon ":"); [|discriminate].
    destruct (json.scan_once fuel (json.skip s3)) as [w s4| |] eqn:Ev; try discriminate.
    destruct (json.skip s4) as [|d s5] eqn:Ed; [discriminate|].
    apply scanstring_after in Ek as [K1 K2]. apply skip_cons in Ec as [C1 C2].
    apply IHv in Ev as [V1 V2]. apply skip_cons in Ed as [D1 D2].
    pose proof (skip_suffix s3) as S3. pose proof (suffix_length _ _ S3).
    assert (s5 `suffix_of` q :: s1) as Hs5.
    { apply suffix_cons_r.
      etrans; [exact D1|]. etrans; [exact V1|]. etrans; [exact S3|].
      etrans; [exact C1|]. exact K1. }
    destruct (ascii_eqb d "}").
    + intros [= _ <-]. split; [exact Hs5 | simpl; lia].
    + destruct (ascii_eqb d ","); [|discriminate].
      intros [H1 H2]%IHo. pose proof (skip_suffix s5) as S5.
      pose proof (suffix_length _ _ S5).
      split; [etrans; [exact H1|]; etrans; [exact S5|]; exact Hs5 | simpl; lia].
  - intros values s v rest. cbn [json.parse_array].
    destruct (json.scan_once fuel s) as [w s1| |] eqn:Ev; try discriminate.
    destruct (json.skip s1) as [|d s2] eqn:Ed; [discriminate|].
    apply IHv in Ev as [V1 V2]. apply skip_cons in Ed as [D1 D2].
    destruct (ascii_eqb d "]").
    + intros [= _ <-]. split; [etrans; eassumption | lia].
    + destruct (ascii_eqb d ","); [|discriminate].
      intros [H1 H2]%IHa. pose proof (skip_suffix s2) as S2.
      pose proof (suffix_length _ _ S2).
      split; [etrans; [exact H1|]; etrans; [exact S2|]; etrans; eassumption | lia].
Qed.


Lemma scan_atom_fuel s : json.scan_atom s <> json.OutOfFuel.
Proof.
  unfold json.scan_atom, json.constant.
  repeat (destruct (Text.startswith _ s); [discriminate|]).
  unfold json.match_number.
  destruct (match s with [] => _ | _ :: _ => _ end) as [sign s0].
  destruct (json.integer_part s0) as [[i s1]|]; [|discriminate].
  destruct (json.fraction_part s1) as [f s2].
  destruct (json.exponent_part s2) as [e s3].
  destruct f, e; discriminate.
Qed.

(** Fuel for two steps a character is enough: the decoder never stops
    for want of fuel. *)
Lemma scan_fuel fuel :
  (forall s, (2 * length s + 1 <= fuel)%nat ->
     json.scan_once fuel s <> json.OutOfFuel)
  /\ (forall pairs s, (2 * length s + 1 <= fuel)%nat ->
        json.parse_object fuel pairs s <> json.OutOfFuel)
  /\ (forall values s, (2 * length s + 2 <= fuel)%nat ->
        json.parse_array fuel values s <> json.OutOfFuel).
Proof.
  induction fuel as [|fuel (IHv & IHo & IHa)]; [repeat split; intros; lia|].
  split; [|split].
  - intros s Hf. cbn [json.scan_once].
    destruct s as [|c s1]; [discriminate|]. simpl in Hf.
    destruct (ascii_eqb c quote).
    { destruct (json.scanstring s1) as [[x r]|]; discriminate. }
    destruct (ascii_eqb c "{").
    { destruct (json.skip s1) as [|c' r] eqn:E; [discriminate|].
      destruct (ascii_eqb c' "}"); [discriminate|].
      apply IHo. rewrite <- E. pose proof (suffix_length _ _ (skip_suffix s1)). lia. }
    destruct (ascii_eqb c "[").
    { destruct (json.skip s1) as [|c' r] eqn:E; [discriminate|].
      destruct (ascii_eqb c' "]"); [discriminate|].
      apply IHa. rewrite <- E. pose proof (suffix_length _ _ (skip_suffix s1)). lia. }
    apply scan_atom_fuel.
  - intros pairs s Hf. cbn [json.parse_object].
    destruct s as [|q s1]; [discriminate|]. simpl in Hf.
    destruct (ascii_eqb q quote); [|discriminate].
    destruct (json.scanstring s1) as [[key s2]|] eqn:Ek; [|discriminate].
    destruct (json.skip s2) as [|colon s3] eqn:Ec; [discriminate|].
    destruct (ascii_eqb colon ":"); [|discriminate].
    apply scanstring_after in Ek as [K1 K2]. apply skip_cons in Ec as [C1 C2].
    pose proof (suffix_length _ _ (skip_suffix s3)).
    destruct (json.scan_once fuel (json.skip s3)) as [w s4| |] eqn:Ev;
      [ | discriminate | exfalso; apply (IHv (json.skip s3)); [lia | exact Ev] ].
    destruct (json.skip s4) as [|d s5] eqn:Ed; [discriminate|].
    apply (proj1 (scan_after fuel)) in Ev as [V1 V2].
    apply skip_cons in Ed as [D1 D2].
    destruct (ascii_eqb d "}"); [discriminate|].
    destruct (ascii_eqb d ","); [|discriminate].
    apply IHo. pose proof (suffix_length _ _ (skip_suffix s5)). lia.
  - intros values s Hf. cbn [json.parse_array].
    destruct (json.scan_once fuel s) as [w s1| |] eqn:Ev;
      [ | discriminate | exfalso; apply (IHv s); [lia | exact Ev] ].
    destruct (json.skip s1) as [|d s2] eqn:Ed; [discriminate|].
    apply (proj1 (scan_after fuel)) in Ev as [V1 V2].
    apply skip_cons in Ed as [D1 D2].
    destruct (ascii_eqb d "]"); [discriminate|].
    destruct (ascii_eqb d ","); [|discriminate].
    apply IHa. pose proof (suffix_length _ _ (skip_suffix s2)). lia.
Qed.

(** [json.loads] answers [None] only for a text that is not JSON. *)
Lemma loads_never_out_of_fuel s :
  json.scan_once (json.fuel_for s) (json.skip s) <> json.OutOfFuel.
Proof.
  apply (proj1 (scan_fuel _)). unfold json.fuel_for.
  pose proof (suffix_length _ _ (skip_suffix s)). lia.
Qed.

Lemma parse_array_list fuel values s v rest :
  json.parse_array fuel values s = json.Match v rest -> exists l, v = VList l.
Proof.
  revert values s. induction fuel as [|fuel IH]; intros values s; [discriminate|].
  cbn [json.parse_array].
  destruct (json.scan_once fuel s) as [w s1| |]; try discriminate.
  destruct (json.skip s1) as [|d s2]; [discriminate|].
  destruct (ascii_eqb d "]"); [intros [= <- _]; eauto|].
  destruct (ascii_eqb d ","); [apply IH | discriminate].
Qed.

Lemma parse_object_closed fuel pairs s v rest :
  json.parse_object fuel pairs s = json.Match v rest -> "}"%char ∈ s.
Proof.
  revert pairs s. induction fuel as [|fuel IH]; intros pairs s; [discriminate|].
  cbn [json.parse_object].
  destruct s as [|q s1]; [discriminate|].
  destruct (ascii_eqb q quote); [|discriminate].
  destruct (json.scanstring s1) as [[key s2]|] eqn:Ek; [|discriminate].
  destruct (json.skip s2) as [|colon s3] eqn:Ec; [discriminate|].
  destruct (ascii_eqb colon ":"); [|discriminate].
  destruct (json.scan_once fuel (json.skip s3)) as [w s4| |] eqn:Ev; try discriminate.
  destruct (json.skip s4) as [|d s5] eqn:Ed; [discriminate|].
  apply scanstring_after in Ek as [K1 _]. apply skip_cons in Ec as [C1 _].
  apply (proj1 (scan_after fuel)) in Ev as [V1 _].
  assert (s4 `suffix_of` q :: s1) as Hs4.
  { apply suffix_cons_r. etrans; [exact V1|]. etrans; [apply skip_suffix|].
    etrans; [exact C1|]. exact K1. }
  assert (d :: s5 `suffix_of` q :: s1) as Hd.
  { etrans; [|exact Hs4]. rewrite <- Ed. apply skip_suffix. }
  destruct (ascii_eqb d "}") eqn:Eb.
  - intros _. apply ascii_eqb_true in Eb as ->.
    apply (elem_of_suffix _ _ _ (list_elem_of_here _ _) Hd).
  - destruct (ascii_eqb d ","); [|discriminate].
    intros Hin%IH. apply (elem_of_suffix _ _ _ Hin).
    etrans; [apply skip_suffix|]. apply suffix_cons_l in Hd. exact Hd.
Qed.

Lemma scan_once_dict fuel s d rest :
  json.scan_once fuel s = json.Match (VDict d) rest ->
  exists s1, s = "{"%char :: s1 /\ "}"%char ∈ s1.
Proof.
  destruct fuel as [|fuel]; [discriminate|]. cbn [json.scan_once].
  destruct s as [|c s1]; [discriminate|].
  destruct (ascii_eqb c quote).
  { destruct (json.scanstring s1) as [[x r]|]; discriminate. }
  destruct (ascii_eqb c "{") eqn:Eo.
  { apply ascii_eqb_true in Eo as ->. intros Hv. exists s1. split; [reflexivity|].
    destruct (json.skip s1) as [|c' r] eqn:E; [discriminate|].
    pose proof (skip_suffix s1) as Hs. rewrite E in Hs.
    destruct (ascii_eqb c' "}") eqn:Ec.
    - apply ascii_eqb_true in Ec as ->.
      apply (elem_of_suffix _ _ _ (list_elem_of_here _ _) Hs).
    - apply parse_object_closed in Hv. apply (elem_of_suffix _ _ _ Hv Hs). }
  destruct (ascii_eqb c "[").
  { destruct (json.skip s1) as [|c' r]; [discriminate|].
    destruct (ascii_eqb c' "]"); [discriminate|].
    intros (l & [=])%parse_array_list. }
  intros [_ []]%scan_atom_after.
Qed.

(** A text that the decoder reads as a JSON object has an opening and a
    closing brace. *)
Lemma loads_object_braces s d :
  json.loads s = Some (VDict d) -> ("{"%char ∈ s) /\ ("}"%char ∈ s).
Proof.
  unfold json.loads.
  destruct (json.scan_once _ _) as [v rest| |] eqn:Ev; try discriminate.
  destruct (json.skip rest); [|discriminate]. intros [= ->].
  apply scan_once_dict in Ev as (s1 & Hs & Hin).
  pose proof (skip_suffix s) as Hsuf. rewrite Hs in Hsuf.
  split.
  - apply (elem_of_suffix _ _ _ (list_elem_of_here _ _) Hsuf).
  - apply (elem_of_suffix _ _ _ (list_elem_of_further _ _ _ Hin) Hsuf).
Qed.

End JsonFacts.

(** ** The mapping ingestor *)

(** Prose without an opening brace before a text and without a closing
    brace after it changes nothing, as soon as the text has both braces. *)
Lemma parse_llm_json_outside (pre s post : str) :
  "{"%char ∈ s -> "}"%char ∈ s -> "{"%char ∉ pre -> "}"%char ∉ post ->
  parse_llm_json (pre ++ s ++ post) = parse_llm_json s.
Proof.
  intros Ho Hc Hpre Hpost.
  rewrite !parse_llm_json_extract, extract_outside by assumption.
  reflexivity.
Qed.

Lemma parse_llm_json_fenced (tag s : str) :
  "{"%char ∈ s -> "}"%char ∈ s -> "{"%char ∉ tag ->
  parse_llm_json (Text.fence ++ tag ++ [chr 10] ++ s ++ [chr 10] ++ Text.fence)
  = parse_llm_json s.
Proof.
  intros Ho Hc Htag.
  replace (Text.fence ++ tag ++ [chr 10] ++ s ++ [chr 10] ++ Text.fence)
    with ((Text.fence ++ tag ++ [chr 10]) ++ s ++ ([chr 10] ++ Text.fence))
    by (rewrite <- !app_assoc; reflexivity).
  apply parse_llm_json_outside; try assumption.
  - rewrite !not_elem_of_app. repeat split; [compute_done | assumption | compute_done].
  - compute_done.
Qed.

(** A text from an opening brace to a closing brace goes to the decoder
    whole. *)
Lemma parse_llm_json_braced (m : str) :
  parse_llm_json ("{"%char :: m ++ ["}"%char])
  = decoded ("{"%char :: m ++ ["}"%char]).
Proof.
  rewrite parse_llm_json_extract. unfold extract.
  change ("{"%char :: m ++ ["}"%char]) with (("{"%char :: m) ++ ["}"%char]).
  rewrite (rfind_app_found "}" ("{"%char :: m) ["}"%char]) by discriminate.
  change (Text.find "{" (("{"%char :: m) ++ ["}"%char])) with 0.
  change (Text.rfind "}" ["}"%char]) with 0.
  pose proof (len_nonneg ("{"%char :: m)).
  destruct (Z.eqb_spec (len ("{"%char :: m) + 0) (-1)); [lia|]. simpl orb. cbv iota.
  replace (len ("{"%char :: m) + 0 + 1) with (len (("{"%char :: m) ++ ["}"%char]))
    by (rewrite len_app; unfold len; simpl; lia).
  rewrite slice_whole. reflexivity.
Qed.

(** C3: a text that holds both braces, as every text that is read as a
    JSON object does ([loads_object_braces]), wrapped in one fenced block
    (three backticks, a language tag, a newline, and the closing fence on a
    line of its own) or put between prose that has no opening brace before
    it and no closing brace after it, is parsed to the result of parsing
    the text itself; and parsing a text that goes from an opening brace
    to a closing brace, as the serialization of an object does, is
    decoding it. *)
Theorem parse_llm_json_wrapped (s : str) :
  "{"%char ∈ s -> "}"%char ∈ s ->
  (forall tag : str, "{"%char ∉ tag ->
     parse_llm_json (Text.fence ++ tag ++ [chr 10] ++ s ++ [chr 10] ++ Text.fence)
     = parse_llm_json s) /\
  (forall pre post : str, "{"%char ∉ pre -> "}"%char ∉ post ->
     parse_llm_json (pre ++ s ++ post) = parse_llm_json s) /\
  (forall m : str, s = "{"%char :: m ++ ["}"%char] ->
     parse_llm_json s = decoded s).
Proof.
  intros Ho Hc. split; [|split].
  - intros tag Htag. apply parse_llm_json_fenced; assumption.
  - intros pre post Hpre Hpost. apply parse_llm_json_outside; assumption.
  - intros m ->. apply parse_llm_json_braced.
Qed.

(** The same for the serialization of a JSON object, that is, a text the
    decoder reads as a [dict]. *)
Lemma parse_llm_json_wrapped_object (s : str) (O : dict) :
  json.loads s = Some (VDict O) ->
  (forall tag : str, "{"%char ∉ tag ->
     parse_llm_json (Text.fence ++ tag ++ [chr 10] ++ s ++ [chr 10] ++ Text.fence)
     = parse_llm_json s) /\
  (forall pre post : str, "{"%char ∉ pre -> "}"%char ∉ post ->
     parse_llm_json (pre ++ s ++ post) = parse_llm_json s).
Proof.
  intros [Ho Hc]%loads_object_braces. split.
  - intros tag Htag. apply parse_llm_json_fenced; assumption.
  - intros pre post Hpre Hpost. apply parse_llm_json_outside; assumption.
Qed.

Lemma parse_llm_json_wrapped_witness :
  parse_llm_json (py "```json" ++ [chr 10] ++ dq "{'S': []}" ++ [chr 10] ++ py "```")
  = parse_llm_json (dq "{'S': []}")
  /\ parse_llm_json (py "Here it is: " ++ dq "{'S': []}" ++ py " Done.")
  = parse_llm_json (dq "{'S': []}")
  /\ parse_llm_json (dq "{'S': []}") = Ok (VDict [(py "S", VList [])]).
Proof.
  destruct (parse_llm_json_wrapped (dq "{'S': []}")) as (Hfence & Hprose & Hwhole);
    [compute_done | compute_done |].
  split; [|split].
  - apply (Hfence (py "json")). compute_done.
  - apply (Hprose (py "Here it is: ") (py " Done.")); compute_done.
  - apply (Hwhole (dq "'S': []")). reflexivity.
Defined.



(** Unbalanced braces need not fail at all: the brace inside the string
    of this text opens nothing. *)
Example unbalanced_braces_accepted :
  balanced (dq "{'a': '{'}") = false
  /\ parse_llm_json (dq "{'a': '{'}") = Ok (VDict [(py "a", VStr "{")]).
Proof. split; vm_compute; reflexivity. Qed.


(** ** The producer call *)

(** C1, as the code has it: the mapping comes from the model behind the
    API, so two runs on one prompt agree as far as the answers of the
    model do.  [call_llm] returns the same result in two worlds where the
    API key is set, or is not, in both, and where the two answers hold
    the same text between their first opening brace and their last
    closing brace: what the key is, and what the answers have around
    that text, a fence or prose, makes no difference.  So the second of
    two runs in a row returns what the first returned when the model
    answers the second request with such a text. *)
Theorem call_llm_deterministic_in_response :
  (forall (w1 w2 : World) (prompt : str),
     has_api_key w1 = has_api_key w2 ->
     extract (model w1 (sent w1) prompt) = extract (model w2 (sent w2) prompt) ->
     fst (call_llm w1 prompt) = fst (call_llm w2 prompt)) /\
  (forall (w : World) (prompt : str),
     extract (model w (sent w ++ [prompt]) prompt)
     = extract (model w (sent w) prompt) ->
     fst (call_llm (snd (call_llm w prompt)) prompt) = fst (call_llm w prompt)).
Proof.
  assert (forall (w1 w2 : World) (prompt : str),
            has_api_key w1 = has_api_key w2 ->
            extract (model w1 (sent w1) prompt)
            = extract (model w2 (sent w2) prompt) ->
            fst (call_llm w1 prompt) = fst (call_llm w2 prompt)) as Hsame.
  { intros w1 w2 prompt Hkey Hanswer. unfold call_llm, has_api_key in *.
    destruct (getenv _ (environ w1)) as [[|? ?]|],
             (getenv _ (environ w2)) as [[|? ?]|];
      try discriminate; try reflexivity.
    cbn [fst]. rewrite !parse_llm_json_extract, Hanswer. reflexivity. }
  split; [exact Hsame|].
  intros w prompt Hanswer. apply Hsame.
  - unfold call_llm, has_api_key.
    destruct (getenv _ (environ w)) as [[|? ?]|] eqn:E; cbn [snd environ];
      rewrite ?E; reflexivity.
  - unfold call_llm.
    destruct (getenv _ (environ w)) as [[|? ?]|] eqn:E; cbn [snd model sent];
      [reflexivity | exact Hanswer | reflexivity].
Qed.

Lemma call_llm_deterministic_in_response_witness :
  model fickle_world (sent fickle_world) "prompt"
  <> model fenced_world (sent fenced_world) "prompt"
  /\ fst (call_llm fickle_world "prompt") = fst (call_llm fenced_world "prompt").
Proof.
  split.
  - vm_compute. discriminate.
  - apply (proj1 call_llm_deterministic_in_response); vm_compute; reflexivity.
Defined.

(** C1 as stated fails: the second of two runs of [call_llm] on one prompt
    returns another mapping than the first when the model answers
    otherwise. *)
Lemma call_llm_two_runs_differ :
  let first_run := call_llm fickle_world "prompt" in
  let second_run := call_llm (snd first_run) "prompt" in
  fst first_run = Ok (VDict [(py "First", VList [])]) /\
  fst second_run = Ok (VDict [(py "Second", VList [])]) /\
  fst first_run <> fst second_run.
Proof.
  split; [|split].
  - vm_compute. reflexivity.
  - vm_compute. reflexivity.
  - vm_compute. discriminate.
Qed.

(** ** The coordinate codec *)

Section CodecFacts.

Import Codec.

Lemma ord_chr z : 0 <= z < 256 -> ord (chr z) = z.
Proof.
  intros Hz. unfold ord, chr.
  rewrite N_ascii_embedding by lia. lia.
Qed.

Lemma column_number_snoc ls c :
  column_number (ls ++ [c]) = column_number ls * 26 + (ord c - 64).
Proof. unfold column_number. rewrite fold_left_app. reflexivity. Qed.

Lemma row_number_snoc ds c :
  row_number (ds ++ [c]) = row_number ds * 10 + (ord c - 48).
Proof. unfold row_number. rewrite fold_left_app. reflexivity. Qed.

Lemma letters_spec fuel col :
  0 <= col -> (Z.to_nat col <= fuel)%nat ->
  column_number (letters fuel col) = col
  /\ forallb is_upper (letters fuel col) = true
  /\ (0 < col -> letters fuel col <> []).
Proof.
  revert col. induction fuel as [|fuel IH]; intros col Hcol Hfuel.
  - assert (col = 0) as -> by lia. simpl. repeat split; try reflexivity; lia.
  - simpl. destruct (Z.leb_spec col 0).
    + assert (col = 0) as -> by lia. repeat split; try reflexivity; lia.
    + pose proof (Z.div_mod (col - 1) 26 ltac:(lia)).
      pose proof (Z.mod_pos_bound (col - 1) 26 ltac:(lia)).
      assert (0 <= (col - 1) / 26) by (apply Z.div_pos; lia).
      destruct (IH ((col - 1) / 26)) as (Hn & Hu & _); [lia | lia |].
      rewrite column_number_snoc, Hn, ord_chr by lia.
      rewrite forallb_app, Hu. unfold is_upper at 1. simpl.
      rewrite ord_chr by lia.
      repeat split; [lia | | intros _; apply not_eq_sym, app_cons_not_nil].
      rewrite andb_true_r.
      apply andb_true_iff; split; [apply Z.leb_le | apply Z.leb_le]; lia.
Qed.

Lemma decimal_spec fuel n :
  1 <= n -> (Z.to_nat n <= fuel)%nat ->
  row_number (decimal fuel n) = n
  /\ forallb is_digit (decimal fuel n) = true
  /\ decimal fuel n <> [].
Proof.
  revert n. induction fuel as [|fuel IH]; intros n Hn Hfuel; [lia|].
  simpl. destruct (Z.ltb_spec n 10).
  - unfold row_number, is_digit. simpl. rewrite ord_chr by lia.
    repeat split; [lia | | discriminate].
    rewrite andb_true_r.
    apply andb_true_iff; split; apply Z.leb_le; lia.
  - pose proof (Z.div_mod n 10 ltac:(lia)).
    pose proof (Z.mod_pos_bound n 10 ltac:(lia)).
    assert (1 <= n / 10) by (apply Z.div_le_lower_bound; lia).
    destruct (IH (n / 10)) as (Hr & Hd & _); [lia | lia |].
    rewrite row_number_snoc, Hr, ord_chr by lia.
    rewrite forallb_app, Hd. unfold is_digit at 1. simpl.
    rewrite ord_chr by lia.
    repeat split; [lia | | apply not_eq_sym, app_cons_not_nil].
    rewrite andb_true_r.
    apply andb_true_iff; split; apply Z.leb_le; lia.
Qed.

Lemma digit_not_upper c : is_digit c = true -> is_upper c = false.
Proof.
  unfold is_digit, is_upper. rewrite andb_true_iff, !Z.leb_le. intros [? ?].
  apply andb_false_iff. left. apply Z.leb_gt. lia.
Qed.

Lemma span_letters_digits ls d ds :
  forallb is_upper ls = true -> is_upper d = false ->
  span is_upper (ls ++ d :: ds) = (ls, d :: ds).
Proof.
  intros Hls Hd. induction ls as [|c ls IH]; simpl.
  - rewrite Hd. reflexivity.
  - simpl in Hls. apply andb_true_iff in Hls as [-> Hls].
    rewrite (IH Hls). reflexivity.
Qed.

Lemma decode_encode row col :
  1 <= row -> 1 <= col -> roundtrip row col = Done (row, col).
Proof.
  intros Hrow Hcol. unfold roundtrip, encode.
  destruct (Z.leb_spec row 0); [lia|]. destruct (Z.leb_spec col 0); [lia|].
  simpl. unfold column_letters, row_digits, decode.
  destruct (letters_spec (Z.to_nat col) col) as (Hc & Hu & Hne); [lia | lia |].
  destruct (decimal_spec (Z.to_nat row) row) as (Hr & Hd & Hnd); [lia | lia |].
  destruct (decimal (Z.to_nat row) row) as [|d ds] eqn:Ed; [congruence|].
  rewrite span_letters_digits; [| assumption |].
  2:{ apply digit_not_upper. simpl in Hd. apply andb_true_iff in Hd as [-> _]. reflexivity. }
  destruct (letters (Z.to_nat col) col) as [|l ls] eqn:El; [exfalso; apply Hne; [lia | reflexivity]|].
  rewrite Hd, Hr, Hc. destruct (Z.ltb_spec 0 row); [reflexivity | lia].
Qed.

End CodecFacts.

(** C5: the codec round-trips on every positive row and column, so on
    every row and column between 1 and 1000; the columns 1, 26, 27, 702
    and 703 are A, Z, AA, ZZ and AAA; [encode] fails with
    [InvalidCoordinate] on a row or a column that is not positive. *)
Theorem codec_roundtrip :
  (forall row col : Z,
     1 <= row <= 1000 -> 1 <= col <= 1000 ->
     Codec.roundtrip row col = Codec.Done (row, col)) /\
  (Codec.column_letters 1 = py "A" /\ Codec.column_letters 26 = py "Z" /\
   Codec.column_letters 27 = py "AA" /\ Codec.column_letters 702 = py "ZZ" /\
   Codec.column_letters 703 = py "AAA") /\
  (forall row col : Z,
     row <= 0 \/ col <= 0 -> Codec.encode row col = Codec.InvalidCoordinate).
Proof.
  split; [|split].
  - intros row col Hrow Hcol. apply decode_encode; lia.
  - repeat split; vm_compute; reflexivity.
  - intros row col Hbad. unfold Codec.encode.
    destruct (Z.leb_spec row 0); [reflexivity|].
    destruct (Z.leb_spec col 0); [reflexivity | lia].
Qed.

Lemma codec_roundtrip_witness :
  Codec.roundtrip 1000 703 = Codec.Done (1000, 703)
  /\ Codec.encode 0 5 = Codec.InvalidCoordinate.
Proof.
  destruct codec_roundtrip as (Hround & _ & Hbad). split.
  - apply Hround; lia.
  - apply Hbad. left. lia.
Defined.

(** ** The renderer *)

Section RendererFacts.

Context `{Openpyxl}.

Lemma no_coordinate_falsy record :
  no_coordinate record -> truthy (get record "cell_coordinate" VNone) = false.
Proof. unfold get. intros [-> | [-> | ->]]; reflexivity. Qed.

Lemma write_cells_app worksheet l1 l2 :
  write_cells worksheet (l1 ++ l2) =
    match write_cells worksheet l1 with
    | Ok worksheet' => write_cells worksheet' l2
    | Raise e => Raise e
    end.
Proof.
  revert worksheet. induction l1 as [|r l1 IH]; intros worksheet; [reflexivity|].
  simpl. destruct r; try reflexivity.
  destruct (negb _); [apply IH|].
  destruct (coordinate _); [|reflexivity].
  destruct (set_value _ _); [|reflexivity].
  destruct (style_cell _ _); [apply IH | reflexivity].
Qed.

Lemma write_sheets_app wb items1 items2 :
  write_sheets wb (items1 ++ items2) =
    match write_sheets wb items1 with
    | Ok wb' => write_sheets wb' items2
    | Raise e => Raise e
    end.
Proof.
  revert wb. induction items1 as [|[name values] items1 IH]; intros wb; [reflexivity|].
  simpl. destruct (write_sheet _ _ _); [apply IH | reflexivity].
Qed.

Lemma write_cells_falsy worksheet l1 record l2 :
  truthy (get record "cell_coordinate" VNone) = false ->
  write_cells worksheet (l1 ++ VDict record :: l2) = write_cells worksheet (l1 ++ l2).
Proof.
  intros Hf. rewrite !write_cells_app.
  destruct (write_cells worksheet l1); [|reflexivity].
  cbn [write_cells]. rewrite Hf. reflexivity.
Qed.

Lemma write_cells_all_skipped worksheet records :
  Forall (fun r => exists record, r = VDict record /\ no_coordinate record) records ->
  write_cells worksheet records = Ok worksheet.
Proof.
  induction 1 as [|r records (record & -> & Hno) _ IH]; [reflexivity|].
  cbn [write_cells]. rewrite (no_coordinate_falsy _ Hno). exact IH.
Qed.

Lemma truthy_items (items1 : dict) kv items2 :
  truthy (VDict (items1 ++ kv :: items2)) = true.
Proof. destruct items1; reflexivity. Qed.

(** Two values of a sheet that the loop treats alike are rendered
    alike. *)
Lemma generate_excel_same_sheet fs output_path (before after : dict)
    sheet_name values values' :
  (forall wb, write_sheet wb sheet_name values = write_sheet wb sheet_name values') ->
  generate_excel fs output_path (VDict (before ++ (sheet_name, values) :: after))
  = generate_excel fs output_path (VDict (before ++ (sheet_name, values') :: after)).
Proof.
  intros Hsame. unfold generate_excel, build_workbook.
  rewrite !truthy_items. cbn [negb]. rewrite !write_sheets_app.
  destruct (write_sheets new_workbook before) as [wb|]; [|reflexivity].
  cbn [write_sheets]. rewrite Hsame. reflexivity.
Qed.

Lemma generate_excel_falsy fs output_path (before after : dict)
    sheet_name l1 record l2 :
  truthy (get record "cell_coordinate" VNone) = false ->
  generate_excel fs output_path
    (VDict (before ++ (sheet_name, VList (l1 ++ VDict record :: l2)) :: after))
  = generate_excel fs output_path
      (VDict (before ++ (sheet_name, VList (l1 ++ l2)) :: after)).
Proof.
  intros Hf. apply generate_excel_same_sheet. intros wb.
  unfold write_sheet. destruct (create_sheet wb sheet_name); [|reflexivity].
  cbn [iterate]. apply write_cells_falsy, Hf.
Qed.

Lemma write_cells_error worksheet records e :
  write_cells worksheet records = Raise e ->
  e = CoordinateError \/ e = AttributeError \/ e = LibraryError.
Proof.
  revert worksheet. induction records as [|r records IH]; intros worksheet;
    [discriminate|].
  cbn [write_cells].
  destruct r; try (intros [= <-]; auto).
  destruct (negb _); [apply IH|].
  destruct (coordinate _); [|intros [= <-]; auto].
  unfold set_value. destruct (bind_value _); [|intros [= <-]; auto].
  unfold style_cell. destruct (style_accepted _); [apply IH | intros [= <-]; auto].
Qed.

Lemma write_sheet_error wb sheet_name values e :
  write_sheet wb sheet_name values = Raise e ->
  e = CoordinateError \/ e = AttributeError \/ e = LibraryError \/ e = TypeError.
Proof.
  unfold write_sheet, create_sheet.
  destruct (valid_title sheet_name); [|intros [= <-]; auto].
  destruct (iterate values) as [records|e'] eqn:Hit.
  - intros [?|[?|?]]%write_cells_error; auto.
  - intros [= <-]. destruct values; try discriminate; injection Hit as <-; auto.
Qed.

Lemma write_sheets_error wb items e :
  write_sheets wb items = Raise e ->
  e = CoordinateError \/ e = AttributeError \/ e = LibraryError \/ e = TypeError.
Proof.
  revert wb. induction items as [|[name values] items IH]; intros wb;
    [discriminate|].
  cbn [write_sheets].
  destruct (write_sheet wb name values) as [ws|e'] eqn:Hw; [apply IH|].
  intros [= <-]. apply (write_sheet_error _ _ _ _ Hw).
Qed.

(** What a sheet that was created and filled went through. *)
Lemma write_sheet_ok wb sheet_name values worksheet :
  write_sheet wb sheet_name values = Ok worksheet ->
  exists records,
    valid_title sheet_name = true
    /\ iterate values = Ok records
    /\ write_cells {| title := avoid_duplicate_name (sheetnames wb) sheet_name;
                      cells := ∅ |} records = Ok worksheet.
Proof.
  unfold write_sheet, create_sheet.
  destruct (valid_title sheet_name); [|discriminate].
  destruct (iterate values) as [records|]; [|discriminate].
  intros Hw. exists records. repeat split. exact Hw.
Qed.

Lemma write_cells_title records worksheet worksheet' :
  write_cells worksheet records = Ok worksheet' -> title worksheet' = title worksheet.
Proof.
  revert worksheet. induction records as [|r records IH]; intros worksheet;
    [intros [= <-]; reflexivity|].
  cbn [write_cells]. destruct r; try discriminate.
  destruct (negb _); [apply IH|].
  destruct (coordinate _); [|discriminate].
  destruct (set_value _ _); [|discriminate].
  destruct (style_cell _ _); [|discriminate].
  intros Hl%IH. exact Hl.
Qed.

(** Each sheet a successful walk adds to the workbook is the sheet of
    its item, created and filled; they come in the order of the items. *)
Lemma write_sheets_each wb items wb' :
  write_sheets wb items = Ok wb' ->
  exists sheets,
    wb' = wb ++ sheets
    /\ Forall2 (fun kv ws =>
                  exists wb0, write_sheet wb0 (fst kv) (snd kv) = Ok ws)
         items sheets.
Proof.
  revert wb. induction items as [|[name values] items IH]; intros wb.
  - intros [= <-]. exists []. rewrite app_nil_r. split; constructor.
  - cbn [write_sheets].
    destruct (write_sheet wb name values) as [ws|] eqn:Hw; [|discriminate].
    intros (sheets & -> & Hall)%IH.
    exists (ws :: sheets). rewrite <- app_assoc. split; [reflexivity|].
    constructor; [|assumption]. exists wb. exact Hw.
Qed.

Lemma write_sheets_extends wb items wb' :
  write_sheets wb items = Ok wb' ->
  exists sheets,
    wb' = wb ++ sheets
    /\ Forall2 (fun kv ws =>
                  exists names, title ws = avoid_duplicate_name names (fst kv))
         items sheets.
Proof.
  intros (sheets & -> & Hall)%write_sheets_each.
  exists sheets. split; [reflexivity|].
  eapply Forall2_impl; [exact Hall|].
  intros [name values] ws (wb0 & (records & _ & _ & Hw)%write_sheet_ok).
  exists (sheetnames wb0). apply (write_cells_title _ _ _ Hw).
Qed.

(** One turn of the inner loop, for a record the loop can apply. *)
Lemma write_cells_step worksheet r rest :
  cell_mapping r ->
  write_cells worksheet (r :: rest) = write_cells (written worksheet r) rest.
Proof.
  intros (record & -> & Hrc). cbn [write_cells]. unfold written, target.
  destruct (truthy _); cbn [negb]; [|reflexivity].
  destruct (Hrc eq_refl) as (Hc & Hv & Hs).
  destruct (coordinate _); [|contradiction].
  unfold set_value, style_cell.
  destruct (bind_value _); [|contradiction].
  rewrite Hs. reflexivity.
Qed.

(** A record the loop went past was one it can apply. *)
Lemma write_cells_cons worksheet r rest worksheet' :
  write_cells worksheet (r :: rest) = Ok worksheet' ->
  cell_mapping r /\ write_cells (written worksheet r) rest = Ok worksheet'.
Proof.
  intros Hw.
  assert (cell_mapping r) as Hr.
  { revert Hw. cbn [write_cells]. destruct r; try discriminate.
    intros Hw. eexists. split; [reflexivity|]. intros Ht. rewrite Ht in Hw.
    cbn [negb] in Hw. unfold set_value, style_cell in Hw.
    destruct (coordinate _); [|discriminate].
    destruct (bind_value _); [|discriminate].
    destruct (style_accepted _); [|discriminate].
    repeat split; discriminate. }
  split; [exact Hr|]. rewrite <- (write_cells_step _ _ _ Hr). exact Hw.
Qed.

Lemma write_cells_total worksheet records :
  Forall cell_mapping records ->
  exists worksheet', write_cells worksheet records = Ok worksheet'.
Proof.
  intros Hall. revert worksheet.
  induction Hall as [|r records Hr _ IH]; intros worksheet.
  - eexists. reflexivity.
  - rewrite (write_cells_step _ _ _ Hr). apply IH.
Qed.

Lemma write_sheets_total wb items :
  layout_output items -> exists wb', write_sheets wb items = Ok wb'.
Proof.
  intros Hall. revert wb.
  induction Hall as [|[name values] items (Hn & records & Hv & Hr) _ IH]; intros wb.
  - eexists. reflexivity.
  - simpl in Hv, Hn. subst values. cbn [write_sheets].
    unfold write_sheet, create_sheet. rewrite Hn. cbn [iterate].
    destruct (write_cells_total
                {| title := avoid_duplicate_name (sheetnames wb) name; cells := ∅ |}
                records Hr) as [ws ->].
    apply IH.
Qed.

Lemma build_workbook_sheets (items : dict) wb :
  items <> [] ->
  write_sheets new_workbook items = Ok (new_workbook ++ wb) ->
  build_workbook (VDict items) = Ok wb.
Proof.
  intros Hne Hw. unfold build_workbook.
  destruct items; [contradiction|]. cbn [truthy negb].
  rewrite Hw. reflexivity.
Qed.

(** A successful run saves the sheets the walk added to the new
    workbook, and only them. *)
Lemma generate_excel_saved fs output_path (items : dict) fs' :
  generate_excel fs output_path (VDict items) = (Ok tt, fs') ->
  exists sheets,
    fs' = <[output_path := sheets]> fs
    /\ write_sheets new_workbook items = Ok (new_workbook ++ sheets).
Proof.
  unfold generate_excel, build_workbook.
  destruct (negb (truthy (VDict items))); [discriminate|].
  destruct (write_sheets new_workbook items) as [wb|] eqn:Hw; [|discriminate].
  destruct (write_sheets_each _ _ _ Hw) as (sheets & -> & _).
  intros [= <-]. exists sheets. split; reflexivity.
Qed.

(** ** The cells of a sheet after the loop *)

Lemma targets_app l1 l2 : targets (l1 ++ l2) = targets l1 ++ targets l2.
Proof. unfold targets. apply omap_app. Qed.

Lemma written_cells worksheet r rc :
  target r <> Some rc ->
  cells (written worksheet r) !! rc = cells worksheet !! rc.
Proof.
  intros Ht. unfold written. destruct r; try reflexivity.
  destruct (target _) as [rc'|] eqn:E; [|reflexivity].
  destruct (bind_value _); [|reflexivity].
  unfold put_cell. cbn [cells]. apply lookup_insert_ne. congruence.
Qed.

Lemma written_target worksheet record rc :
  cell_mapping (VDict record) ->
  target (VDict record) = Some rc ->
  exists stored,
    bind_value (get record "cell_value" VNone) = Some stored
    /\ written worksheet (VDict record)
       = put_cell worksheet rc
           (apply_cell_style (with_value (cell_at worksheet rc) stored) record).
Proof.
  intros (record' & [= <-] & Hrc) Ht. unfold written. rewrite Ht.
  unfold target in Ht. destruct (truthy _); [|discriminate].
  destruct (Hrc eq_refl) as (_ & Hv & _).
  destruct (bind_value _) as [stored|]; [|contradiction].
  exists stored. split; reflexivity.
Qed.

Lemma written_is_Some worksheet r rc :
  cell_mapping r ->
  is_Some (cells (written worksheet r) !! rc)
  <-> target r = Some rc \/ is_Some (cells worksheet !! rc).
Proof.
  intros Hr. destruct (target r) as [rc'|] eqn:E.
  - destruct Hr as (record & -> & Hrc).
    destruct (written_target worksheet record rc' (ex_intro _ record (conj eq_refl Hrc)) E)
      as (stored & _ & ->).
    unfold put_cell. cbn [cells]. rewrite lookup_insert_is_Some'.
    split; (intros [Heq|?]; [left; congruence | right; assumption]).
  - rewrite written_cells by (rewrite E; discriminate).
    split; [auto | intros [[=]|?]; assumption].
Qed.

(** The cells of a sheet after the loop: those it had and those the
    records designate. *)
Lemma write_cells_domain records worksheet worksheet' rc :
  write_cells worksheet records = Ok worksheet' ->
  is_Some (cells worksheet' !! rc)
  <-> is_Some (cells worksheet !! rc) \/ rc ∈ targets records.
Proof.
  revert worksheet. induction records as [|r records IH]; intros worksheet.
  - intros [= <-]. unfold targets. simpl. rewrite elem_of_nil. tauto.
  - intros [Hr Hw]%write_cells_cons. rewrite (IH _ Hw), (written_is_Some _ _ _ Hr).
    unfold targets. cbn [omap list_omap].
    destruct (target r) as [rc'|]; [rewrite elem_of_cons|];
      split; intros; repeat match goal with
        | H : _ \/ _ |- _ => destruct H
        | H : Some _ = Some _ |- _ => injection H as ->
        | H : None = Some _ |- _ => discriminate
        end; subst; auto.
Qed.

Lemma write_cells_untouched records worksheet worksheet' rc :
  write_cells worksheet records = Ok worksheet' ->
  rc ∉ targets records ->
  cells worksheet' !! rc = cells worksheet !! rc.
Proof.
  revert worksheet. induction records as [|r records IH]; intros worksheet.
  - intros [= <-]. reflexivity.
  - intros [_ Hw]%write_cells_cons Hnot.
    unfold targets in Hnot. cbn [omap list_omap] in Hnot.
    rewrite (IH _ Hw).
    + apply written_cells. intros Ht. rewrite Ht in Hnot. apply Hnot. left.
    + destruct (target r); [apply not_elem_of_cons in Hnot as [_ ?]|]; assumption.
Qed.

(** The cell of a record that no later record overwrites. *)
Lemma write_cells_cell_after worksheet l1 record l2 rc worksheet' :
  write_cells worksheet (l1 ++ VDict record :: l2) = Ok worksheet' ->
  target (VDict record) = Some rc ->
  rc ∉ targets l2 ->
  exists before stored,
    write_cells worksheet l1 = Ok before
    /\ bind_value (get record "cell_value" VNone) = Some stored
    /\ cells worksheet' !! rc
       = Some (apply_cell_style (with_value (cell_at before rc) stored) record).
Proof.
  rewrite write_cells_app.
  destruct (write_cells worksheet l1) as [ws1|] eqn:H1; [|discriminate].
  intros [Hr Hw]%write_cells_cons Ht Hnot.
  destruct (written_target ws1 record rc Hr Ht) as (stored & Hv & Hws).
  exists ws1, stored. split; [reflexivity|]. split; [exact Hv|].
  rewrite (write_cells_untouched _ _ _ _ Hw Hnot), Hws.
  unfold put_cell. cbn [cells]. apply lookup_insert_eq.
Qed.

(** The cells of a sheet that was created and filled: a cell is there
    exactly when a record designates it, and the last record that
    designates it gave it the value the library stores for that record
    and the style of that record. *)
Lemma write_sheet_cells wb sheet_name records worksheet :
  write_sheet wb sheet_name (VList records) = Ok worksheet ->
  (forall rc, is_Some (cells worksheet !! rc) <-> rc ∈ targets records)
  /\ (forall l1 record l2 rc,
        records = l1 ++ VDict record :: l2 ->
        target (VDict record) = Some rc ->
        rc ∉ targets l2 ->
        exists earlier stored,
          bind_value (get record "cell_value" VNone) = Some stored
          /\ cells worksheet !! rc
             = Some (apply_cell_style (with_value earlier stored) record)).
Proof.
  intros (records' & _ & [= <-] & Hw)%write_sheet_ok. split.
  - intros rc. rewrite (write_cells_domain _ _ _ rc Hw). cbn [cells].
    rewrite lookup_empty. split; [intros [[? [=]]|?]; assumption | auto].
  - intros l1 record l2 rc -> Ht Hnot.
    destruct (write_cells_cell_after _ _ _ _ _ _ Hw Ht Hnot)
      as (before & stored & _ & Hv & Hcell).
    exists (cell_at before rc), stored. split; assumption.
Qed.

(** C9: a record whose [cell_coordinate] is absent, [None] or the empty
    text is skipped.  The renderer does with the mapping what it does
    with the mapping without that record, the same result and the same
    file; such a record is one the loop can apply, and it designates no
    cell.  On a mapping whose sheet names the library accepts and whose
    other records the loop can apply, the renderer raises nothing and
    saves the file, and every sheet of the file has a cell exactly
    where a record designates one, the last record that designates a
    cell giving it the value the library stores for that record, and
    its style.  A sheet all of whose records are skipped is saved
    empty. *)
Theorem generate_excel_skips_missing_coordinate :
  (forall fs output_path (before after : dict) sheet_name l1 record l2,
     no_coordinate record ->
     generate_excel fs output_path
       (VDict (before ++ (sheet_name, VList (l1 ++ VDict record :: l2)) :: after))
     = generate_excel fs output_path
         (VDict (before ++ (sheet_name, VList (l1 ++ l2)) :: after))) /\
  (forall record,
     no_coordinate record ->
     cell_mapping (VDict record) /\ target (VDict record) = None) /\
  (forall fs output_path (items : dict),
     items <> [] -> layout_output items ->
     exists sheets,
       generate_excel fs output_path (VDict items)
       = (Ok tt, <[output_path := sheets]> fs)
       /\ Forall2
            (fun kv worksheet =>
               exists records,
                 snd kv = VList records
                 /\ (forall rc,
                       is_Some (cells worksheet !! rc) <-> rc ∈ targets records)
                 /\ (forall l1 record l2 rc,
                       records = l1 ++ VDict record :: l2 ->
                       target (VDict record) = Some rc ->
                       rc ∉ targets l2 ->
                       exists earlier stored,
                         bind_value (get record "cell_value" VNone) = Some stored
                         /\ cells worksheet !! rc
                            = Some (apply_cell_style
                                      (with_value earlier stored) record)))
            items sheets) /\
  (forall fs output_path sheet_name records,
     valid_title sheet_name = true ->
     Forall (fun r => exists record, r = VDict record /\ no_coordinate record)
       records ->
     generate_excel fs output_path (VDict [(sheet_name, VList records)])
     = (Ok tt,
        <[output_path :=
            [ {| title := avoid_duplicate_name (sheetnames new_workbook) sheet_name;
                 cells := ∅ |} ]]> fs)).
Proof.
  split; [|split; [|split]].
  - intros fs output_path before after sheet_name l1 record l2 Hno.
    apply generate_excel_falsy, no_coordinate_falsy, Hno.
  - intros record Hno%no_coordinate_falsy. split.
    + exists record. split; [reflexivity|]. rewrite Hno. discriminate.
    + unfold target. rewrite Hno. reflexivity.
  - intros fs output_path items Hne Hlayout.
    destruct (write_sheets_total new_workbook items Hlayout) as [wb' Hw].
    destruct (write_sheets_each _ _ _ Hw) as (sheets & -> & Hall).
    exists sheets. split.
    + unfold generate_excel. rewrite (build_workbook_sheets _ _ Hne Hw).
      reflexivity.
    + clear Hw Hne.
      induction Hall as [|[name values] ws items sheets (wb0 & Hws) _ IH];
        [constructor|].
      apply Forall_cons in Hlayout as [(_ & records & Hv & _) Hlayout].
      constructor; [|apply IH, Hlayout].
      simpl in Hv, Hws. subst values. exists records.
      split; [reflexivity|]. apply (write_sheet_cells _ _ _ _ Hws).
  - intros fs output_path sheet_name records Hn Hall.
    unfold generate_excel, build_workbook.
    cbn [truthy negb write_sheets]. unfold write_sheet, create_sheet.
    rewrite Hn. cbn [iterate].
    rewrite (write_cells_all_skipped _ _ Hall).
    reflexivity.
Qed.

(** C8: the renderer fails with [EmptyLayout] exactly on a mapping with
    no sheet.  When it saves a file, the workbook in it holds one sheet
    for each sheet name, in order, each created under its name: the
    sheets added to the new workbook, without the empty sheet the new
    workbook came with.  And it does save a file for every layout
    mapping with sheets, that is, when the library accepts the sheet
    names and can apply the records. *)
Theorem generate_excel_empty_layout :
  (forall fs output_path (items : dict),
     fst (generate_excel fs output_path (VDict items)) = Raise EmptyLayout
     <-> items = []) /\
  (forall fs output_path (items : dict) fs',
     generate_excel fs output_path (VDict items) = (Ok tt, fs') ->
     exists sheets,
       fs' = <[output_path := sheets]> fs
       /\ write_sheets new_workbook items = Ok (new_workbook ++ sheets)
       /\ Forall2 (fun kv ws =>
                     exists names, title ws = avoid_duplicate_name names (fst kv))
            items sheets) /\
  (forall fs output_path (items : dict),
     items <> [] -> layout_output items ->
     exists sheets,
       generate_excel fs output_path (VDict items)
       = (Ok tt, <[output_path := sheets]> fs)).
Proof.
  split; [|split].
  - intros fs output_path items. split.
    + destruct items as [|kv items]; [reflexivity|].
      unfold generate_excel, build_workbook. cbn [truthy negb].
      destruct (write_sheets _ _) as [wb|e] eqn:Hw; [discriminate|].
      cbn [fst]. intros [= ->].
      destruct (write_sheets_error _ _ _ Hw) as [?|[?|[?|?]]]; discriminate.
    + intros ->. reflexivity.
  - intros fs output_path items fs' (sheets & -> & Hw)%generate_excel_saved.
    exists sheets. split; [reflexivity|]. split; [exact Hw|].
    destruct (write_sheets_extends _ _ _ Hw) as (sheets' & E & Hall).
    apply app_inv_head in E as <-. exact Hall.
  - intros fs output_path items Hne Hlayout.
    destruct (write_sheets_total new_workbook items Hlayout) as [wb' Hw].
    destruct (write_sheets_each _ _ _ Hw) as (sheets & -> & _).
    exists sheets. unfold generate_excel.
    rewrite (build_workbook_sheets _ _ Hne Hw). reflexivity.
Qed.

Lemma generate_excel_sheet_fails fs output_path (before after : dict)
    sheet_name values wb e :
  write_sheets new_workbook before = Ok wb ->
  write_sheet wb sheet_name values = Raise e ->
  generate_excel fs output_path
    (VDict (before ++ (sheet_name, values) :: after))
  = (Raise e, fs).
Proof.
  intros Hb Hr. unfold generate_excel, build_workbook.
  rewrite truthy_items. cbn [negb]. rewrite write_sheets_app, Hb.
  cbn [write_sheets]. rewrite Hr. reflexivity.
Qed.

Lemma generate_excel_unsaved fs output_path output_data_mappings e fs' :
  generate_excel fs output_path output_data_mappings = (Raise e, fs') -> fs' = fs.
Proof.
  unfold generate_excel.
  destruct (build_workbook output_data_mappings); [discriminate|].
  intros [= _ <-]. reflexivity.
Qed.

(** Whatever the sheets before it do, a sheet that cannot be created
    and filled makes the renderer fail. *)
Lemma generate_excel_fails_at fs output_path (before after : dict)
    sheet_name values :
  (forall wb, exists e, write_sheet wb sheet_name values = Raise e) ->
  exists e,
    generate_excel fs output_path
      (VDict (before ++ (sheet_name, values) :: after))
    = (Raise e, fs).
Proof.
  intros Hfails. unfold generate_excel, build_workbook.
  rewrite truthy_items. cbn [negb]. rewrite write_sheets_app.
  destruct (write_sheets new_workbook before) as [wb|e]; [|eauto].
  cbn [write_sheets]. destruct (Hfails wb) as [e ->]. eauto.
Qed.

(** C7: whenever the renderer fails, the files are what they were: no
    file is written, partly or wholly; in particular when applying the
    records of a sheet fails, or creating the sheet or walking over its
    value, after sheets that raised nothing.  The one write happens
    after the workbook is built and saved to the buffer. *)
Theorem generate_excel_atomic :
  (forall fs output_path output_data_mappings e fs',
     generate_excel fs output_path output_data_mappings = (Raise e, fs') ->
     fs' = fs) /\
  (forall fs output_path (before after : dict) sheet_name records wb worksheet e,
     write_sheets new_workbook before = Ok wb ->
     create_sheet wb sheet_name = Ok worksheet ->
     write_cells worksheet records = Raise e ->
     generate_excel fs output_path
       (VDict (before ++ (sheet_name, VList records) :: after))
     = (Raise e, fs)) /\
  (forall fs output_path (before after : dict) sheet_name values wb e,
     write_sheets new_workbook before = Ok wb ->
     write_sheet wb sheet_name values = Raise e ->
     generate_excel fs output_path
       (VDict (before ++ (sheet_name, values) :: after))
     = (Raise e, fs)).
Proof.
  split; [|split].
  - apply generate_excel_unsaved.
  - intros fs output_path before after sheet_name records wb worksheet e Hb Hc Hw.
    apply generate_excel_sheet_fails with (wb := wb); [assumption|].
    unfold write_sheet. rewrite Hc. exact Hw.
  - intros. apply generate_excel_sheet_fails with (wb := wb); assumption.
Qed.

(** C6, as the code has it: a record whose coordinate is truthy, that
    is, present and neither [None], empty, zero nor [False], and
    designates no cell makes the renderer fail, and no file is written;
    the failure is [BadCoordinate] when the sheets before it, the
    creation of its own sheet and the records before it raised
    nothing.  A record whose coordinate is absent or
    falsy is skipped and is no failure: the renderer does with the
    mapping what it does without that record. *)
Theorem generate_excel_bad_coordinate :
  forall fs output_path (before after : dict) sheet_name l1 record l2,
    (truthy (get record "cell_coordinate" VNone) = true ->
     coordinate (get record "cell_coordinate" VNone) = None ->
     (exists e,
        generate_excel fs output_path
          (VDict (before ++ (sheet_name, VList (l1 ++ VDict record :: l2)) :: after))
        = (Raise e, fs)) /\
     (forall wb created worksheet,
        write_sheets new_workbook before = Ok wb ->
        create_sheet wb sheet_name = Ok created ->
        write_cells created l1 = Ok worksheet ->
        generate_excel fs output_path
          (VDict (before ++ (sheet_name, VList (l1 ++ VDict record :: l2)) :: after))
        = (Raise BadCoordinate, fs))) /\
    (truthy (get record "cell_coordinate" VNone) = false ->
     generate_excel fs output_path
       (VDict (before ++ (sheet_name, VList (l1 ++ VDict record :: l2)) :: after))
     = generate_excel fs output_path
         (VDict (before ++ (sheet_name, VList (l1 ++ l2)) :: after))).
Proof.
  intros fs output_path before after sheet_name l1 record l2.
  split; [|apply generate_excel_falsy].
  intros Ht Hc.
  assert (forall ws, write_cells ws (VDict record :: l2) = Raise BadCoordinate)
    as Hbad.
  { intros ws. cbn [write_cells]. rewrite Ht, Hc. reflexivity. }
  split.
  - apply generate_excel_fails_at. intros wb. unfold write_sheet.
    destruct (create_sheet wb sheet_name) as [created|e]; [|eauto].
    cbn [iterate]. rewrite write_cells_app.
    destruct (write_cells created l1) as [ws|e]; [|eauto].
    rewrite Hbad. eauto.
  - intros wb created worksheet Hb Hn Hl.
    apply generate_excel_sheet_fails with (wb := wb); [assumption|].
    unfold write_sheet. rewrite Hn. cbn [iterate].
    rewrite write_cells_app, Hl. apply Hbad.
Qed.

(** C2, as the code has it: the ingestor validates nothing.  What it
    returns is what the decoder made of the text between the braces;
    [main] hands that mapping to the renderer as it is; the renderer
    applies every list of records it can apply one by one, whatever
    coordinates they share; and a record whose coordinate is already
    taken is written onto the same cell, so that the last record written
    to a coordinate gives the cell its value, the one the library stores
    for the value of that record. *)
Theorem parse_llm_json_unvalidated :
  (forall raw_text v,
     parse_llm_json raw_text = Ok v ->
     exists text, extract raw_text = Some text /\ json.loads text = Some v) /\
  (forall w prompt output_data_mappings w1,
     call_llm w prompt = (Ok output_data_mappings, w1) ->
     main w prompt
     = (let '(r, fs) :=
          generate_excel (files w1) "output.xlsx" output_data_mappings in
        (r, {| environ := environ w1; model := model w1; sent := sent w1;
               files := fs |}))) /\
  (forall worksheet records,
     Forall cell_mapping records ->
     exists worksheet', write_cells worksheet records = Ok worksheet') /\
  (forall worksheet l1 record l2 rc worksheet',
     write_cells worksheet (l1 ++ VDict record :: l2) = Ok worksheet' ->
     target (VDict record) = Some rc ->
     rc ∉ targets l2 ->
     exists stored,
       bind_value (get record "cell_value" VNone) = Some stored
       /\ value <$> (cells worksheet' !! rc) = Some stored).
Proof.
  split; [|split; [|split]].
  - intros raw v. rewrite parse_llm_json_extract. unfold decoded.
    destruct (extract raw) as [text|]; [|discriminate].
    destruct (json.loads text) as [v'|] eqn:Hl; [|discriminate].
    intros [= <-]. eauto.
  - intros w prompt m w1 Hcall. unfold main. rewrite Hcall. reflexivity.
  - intros worksheet records. apply write_cells_total.
  - intros worksheet l1 record l2 rc worksheet' Hw Ht Hnot.
    destruct (write_cells_cell_after _ _ _ _ _ _ Hw Ht Hnot)
      as (before & stored & _ & Hv & Hcell).
    exists stored. split; [exact Hv|]. rewrite Hcell. reflexivity.
Qed.

End RendererFacts.

(** ** Styling a cell *)

Section StyleFacts.

Context `{Openpyxl}.






End StyleFacts.

(** ** The renderer on a workbook with the addresses of the codec *)



Example apply_cell_style_empty_record :
  apply_cell_style new_cell [] =
    {| value := VNone;
       font := Some {| size := VInt 11; color := VStr "000000";
                       bold := VBool false; italic := VBool false |};
       fill := None;
       alignment := Some {| horizontal := VStr "left"; vertical := VStr "center";
                            wrap_text := true |};
       border := Some {| top := {| style := VNone; side_color := VNone |};
                         bottom := {| style := VNone; side_color := VNone |};
                         left := {| style := VNone; side_color := VNone |};
                         right := {| style := VNone; side_color := VNone |} |} |}.
Proof. reflexivity. Qed.

Example style_cell_empty_record :
  @style_cell codec_workbook new_cell [] = Ok (apply_cell_style new_cell []).
Proof. vm_compute. reflexivity. Qed.

Lemma at_A1_mapping : @cell_mapping codec_workbook (VDict at_A1).
Proof.
  exists at_A1. split; [reflexivity|]. intros _.
  repeat split; vm_compute; discriminate.
Qed.

Lemma valued_only_mapping : @cell_mapping codec_workbook (VDict valued_only).
Proof. exists valued_only. split; [reflexivity | discriminate]. Qed.

Lemma generate_excel_skips_missing_coordinate_witness :
  @generate_excel codec_workbook ∅ "output.xlsx"
    (VDict [(py "S", VList [VDict valued_only; VDict at_A1])])
  = @generate_excel codec_workbook ∅ "output.xlsx"
      (VDict [(py "S", VList [VDict at_A1])])
  /\ (exists worksheet,
        @generate_excel codec_workbook ∅ "output.xlsx"
          (VDict [(py "S", VList [VDict valued_only; VDict at_A1])])
        = (Ok tt, {[ py "output.xlsx" := [worksheet] ]})
        /\ value <$> (cells worksheet !! (1, 1)) = Some (VInt 1))
  /\ @generate_excel codec_workbook ∅ "output.xlsx"
       (VDict [(py "S", VList [VDict valued_only])])
     = (Ok tt, {[ py "output.xlsx" := [ {| title := "S"; cells := ∅ |} ] ]}).
Proof.
  destruct (@generate_excel_skips_missing_coordinate codec_workbook)
    as (Hskip & _ & Hrest & Hempty).
  split; [|split].
  - apply (Hskip ∅ "output.xlsx" [] [] "S" [] valued_only [VDict at_A1]).
    left. reflexivity.
  - destruct (Hrest ∅ (py "output.xlsx")
                [(py "S", VList [VDict valued_only; VDict at_A1])])
      as (sheets & Hfile & Hall).
    + discriminate.
    + repeat constructor. exists [VDict valued_only; VDict at_A1].
      split; [reflexivity|].
      repeat constructor; [apply valued_only_mapping | apply at_A1_mapping].
    + inversion Hall as [|kv worksheet items rest (records & Hv & _ & Hlast) Hnil];
        subst. inversion Hnil; subst.
      exists worksheet. split; [exact Hfile|].
      injection Hv as <-.
      destruct (Hlast [VDict valued_only] at_A1 [] (1, 1) eq_refl eq_refl)
        as (earlier & stored & Hstored & ->).
      * vm_compute. apply not_elem_of_nil.
      * vm_compute in Hstored. injection Hstored as <-. reflexivity.
  - apply (Hempty ∅ "output.xlsx" "S" [VDict valued_only]); [reflexivity|].
    repeat constructor. exists valued_only. split; [reflexivity | left; reflexivity].
Defined.

Lemma generate_excel_bad_coordinate_witness :
  @generate_excel codec_workbook old_files "output.xlsx"
    (VDict [(py "S", VList [VDict at_A1; VDict at_nowhere; VDict at_A1_again])])
  = (Raise BadCoordinate, old_files)
  /\ @generate_excel codec_workbook old_files "output.xlsx"
       (VDict [(py "S", VList [VDict at_A1; VDict at_zero; VDict at_A1_again])])
     = @generate_excel codec_workbook old_files "output.xlsx"
         (VDict [(py "S", VList [VDict at_A1; VDict at_A1_again])]).
Proof.
  split.
  - destruct (proj1 (@generate_excel_bad_coordinate codec_workbook
                       old_files "output.xlsx" [] [] "S" [VDict at_A1] at_nowhere
                       [VDict at_A1_again]) eq_refl eq_refl) as [_ Hbad].
    apply (Hbad new_workbook {| title := "S"; cells := ∅ |}
             (put_cell {| title := "S"; cells := ∅ |} (1, 1)
                (apply_cell_style (with_value new_cell (VInt 1)) at_A1)));
      reflexivity.
  - apply (proj2 (@generate_excel_bad_coordinate codec_workbook
                    old_files "output.xlsx" [] [] "S" [VDict at_A1] at_zero
                    [VDict at_A1_again])).
    reflexivity.
Defined.

(** C6 as stated fails: the first record of this sheet has no coordinate,
    which the codec does not decode, and the renderer neither fails nor
    stops: it writes the second record and saves the file. *)
Lemma absent_coordinate_is_no_failure :
  let mapping := VDict [(py "S", VList [VDict valued_only; VDict at_A1])] in
  let outcome := @generate_excel codec_workbook ∅ "output.xlsx" mapping in
  lookup_key "cell_coordinate" valued_only = None /\
  @coordinate codec_workbook (get valued_only "cell_coordinate" VNone) = None /\
  fst outcome = Ok tt /\
  fst outcome <> Raise BadCoordinate /\
  match snd outcome !! py "output.xlsx" with
  | Some [worksheet] => value <$> (cells worksheet !! (1, 1)) = Some (VInt 1)
  | _ => False
  end.
Proof.
  split; [|split; [|split; [|split]]].
  - reflexivity.
  - reflexivity.
  - vm_compute. reflexivity.
  - vm_compute. discriminate.
  - vm_compute. reflexivity.
Qed.

Lemma generate_excel_atomic_witness :
  snd (@generate_excel codec_workbook old_files "output.xlsx"
         (VDict [(py "S", VList [VDict at_A1; VDict at_nowhere])]))
  = old_files
  /\ @generate_excel codec_workbook old_files "output.xlsx"
       (VDict [(py "S", VList [VDict at_A1; VDict red_font])])
     = (Raise LibraryError, old_files)
  /\ @generate_excel codec_workbook old_files "output.xlsx"
       (VDict [(py "S", VList [VDict at_A1]); (py "a/b", VList [])])
     = (Raise LibraryError, old_files).
Proof.
  destruct (@generate_excel_atomic codec_workbook) as (Hany & Hcells & Hsheet).
  split; [|split].
  - apply (Hany old_files "output.xlsx"
             (VDict [(py "S", VList [VDict at_A1; VDict at_nowhere])])
             BadCoordinate).
    reflexivity.
  - apply (Hcells old_files "output.xlsx" [] [] "S" [VDict at_A1; VDict red_font]
             new_workbook {| title := "S"; cells := ∅ |});
      vm_compute; reflexivity.
  - apply (Hsheet old_files "output.xlsx" [(py "S", VList [VDict at_A1])] []
             "a/b" (VList [])
             (new_workbook
                ++ [put_cell {| title := "S"; cells := ∅ |} (1, 1)
                      (apply_cell_style (with_value new_cell (VInt 1)) at_A1)]));
      vm_compute; reflexivity.
Defined.

Lemma generate_excel_empty_layout_witness :
  fst (@generate_excel codec_workbook ∅ "output.xlsx" (VDict [])) = Raise EmptyLayout
  /\ exists sheets,
       @generate_excel codec_workbook ∅ "output.xlsx"
         (VDict [(py "S", VList [VDict at_A1]); (py "Sheet", VList [])])
       = (Ok tt, <[py "output.xlsx" := sheets]> ∅)
       /\ length sheets = 2%nat.
Proof.
  destruct (@generate_excel_empty_layout codec_workbook)
    as (Hempty & Hsaved & Hsheets).
  split.
  - apply Hempty. reflexivity.
  - destruct (Hsheets ∅ (py "output.xlsx")
                [(py "S", VList [VDict at_A1]); (py "Sheet", VList [])])
      as (sheets & Hfile).
    + discriminate.
    + repeat constructor.
      * exists [VDict at_A1]. split; [reflexivity|].
        repeat constructor. apply at_A1_mapping.
      * exists []. split; [reflexivity | constructor].
    + destruct (Hsaved _ _ _ _ Hfile) as (saved & E & _ & Hall).
      exists saved. split; [rewrite <- E; exact Hfile|].
      symmetry. apply (Forall2_length _ _ _ Hall).
Defined.

Lemma parse_llm_json_unvalidated_witness :
  (exists text,
     extract duplicate_text = Some text
     /\ json.loads text = Some (VDict duplicate_mapping))
  /\ match @write_cells codec_workbook {| title := "S"; cells := ∅ |}
             ([VDict at_A1] ++ VDict at_A1_again :: [VDict at_B2]) with
     | Ok worksheet => value <$> (cells worksheet !! (1, 1)) = Some (VInt 2)
     | Raise _ => False
     end.
Proof.
  destruct (@parse_llm_json_unvalidated codec_workbook)
    as (Hreturned & _ & Htotal & Hlast).
  split.
  - apply Hreturned. vm_compute. reflexivity.
  - destruct (@write_cells codec_workbook _ _) as [worksheet|e] eqn:Hw.
    + destruct (Hlast {| title := "S"; cells := ∅ |}
                  [VDict at_A1] at_A1_again [VDict at_B2] (1, 1) worksheet Hw)
        as (stored & Hstored & ->).
      * reflexivity.
      * vm_compute. intros Hin. inversion Hin as [|? ? ? Hin']. inversion Hin'.
      * vm_compute in Hstored. injection Hstored as <-. reflexivity.
    + vm_compute in Hw. discriminate.
Defined.

(** C2 as stated fails: the text is accepted, two records of its sheet
    share the coordinate A1, and nothing is raised: [main] renders the
    mapping, and the cell A1 of the saved file holds the value of the
    second record. *)
Lemma duplicate_coordinates_not_rejected :
  let after := snd (@main codec_workbook duplicate_world "prompt") in
  parse_llm_json duplicate_text = Ok (VDict duplicate_mapping) /\
  ~ unique_coordinates duplicate_mapping /\
  fst (@main codec_workbook duplicate_world "prompt") = Ok tt /\
  match files after !! py "output.xlsx" with
  | Some [worksheet] => value <$> (cells worksheet !! (1, 1)) = Some (VInt 2)
  | _ => False
  end.
Proof.
  split; [|split; [|split]].
  - vm_compute. reflexivity.
  - intros Hunique. apply Forall_cons in Hunique as [Hs _]. simpl in Hs.
    apply NoDup_cons in Hs as [Hin _]. apply Hin. left.
  - vm_compute. reflexivity.
  - vm_compute. reflexivity.
Qed.

(** * Further properties *)

(** ** The mapping ingestor *)

Section IngestorMore.

Implicit Types (c : ascii) (s t : str).

Lemma find_split c s :
  Text.find c s <> -1 ->
  exists a b, s = a ++ c :: b /\ len a = Text.find c s.
Proof.
  induction s as [|x s IH]; simpl; [congruence|].
  destruct (ascii_eqb x c) eqn:E.
  - apply ascii_eqb_true in E as ->. intros _. exists [], s. split; reflexivity.
  - destruct (Z.eqb_spec (Text.find c s) (-1)) as [e|n]; [congruence|].
    intros _. destruct (IH n) as (a & b & -> & Ha).
    exists (x :: a), b. split; [reflexivity|].
    unfold len in *. simpl length. lia.
Qed.

(** What is cut out of a text is empty or begins with the opening brace. *)
Lemma extract_shape raw t :
  extract raw = Some t -> t = [] \/ exists m, t = "{"%char :: m.
Proof.
  unfold extract.
  destruct (Z.eqb_spec (Text.find "{" raw) (-1)) as [e|Hf]; [discriminate|].
  destruct (Z.eqb_spec (Text.rfind "}" raw) (-1)) as [e|Hr]; [discriminate|].
  simpl. intros [= <-].
  pose proof (find_bounds "{" raw). pose proof (rfind_bounds "}" raw).
  destruct (find_split _ _ Hf) as (a & b & Hraw & Ha).
  rewrite slice_nonneg by lia.
  replace (Z.min (Text.find "{" raw) (len raw)) with (len a) by lia.
  generalize (Z.to_nat (Z.min (Text.rfind "}" raw + 1) (len raw) - len a)).
  intros k. rewrite Hraw. unfold len.
  rewrite Nat2Z.id, skipn_app, skipn_all, Nat.sub_diag.
  change (skipn 0 ("{"%char :: b)) with ("{"%char :: b). simpl app.
  destruct k; [left | right; eexists]; reflexivity.
Qed.

Lemma parse_object_dict fuel pairs s v rest :
  json.parse_object fuel pairs s = json.Match v rest -> exists d, v = VDict d.
Proof.
  revert pairs s. induction fuel as [|fuel IH]; intros pairs s; [discriminate|].
  cbn [json.parse_object].
  destruct s as [|q s1]; [discriminate|].
  destruct (ascii_eqb q quote); [|discriminate].
  destruct (json.scanstring s1) as [[key s2]|]; [|discriminate].
  destruct (json.skip s2) as [|colon s3]; [discriminate|].
  destruct (ascii_eqb colon ":"); [|discriminate].
  destruct (json.scan_once fuel (json.skip s3)) as [w s4| |]; try discriminate.
  destruct (json.skip s4) as [|d s5]; [discriminate|].
  destruct (ascii_eqb d "}"); [intros [= <- _]; eauto|].
  destruct (ascii_eqb d ","); [apply IH | discriminate].
Qed.

(** A text that begins with an opening brace decodes to a [dict] or not
    at all. *)
Lemma loads_braced m v :
  json.loads ("{"%char :: m) = Some v -> exists d, v = VDict d.
Proof.
  unfold json.loads, json.fuel_for.
  change (json.skip ("{"%char :: m)) with ("{"%char :: m).
  replace (2 * length ("{"%char :: m) + 2)%nat
    with (S (2 * length ("{"%char :: m) + 1)) by lia.
  cbn [json.scan_once].
  change (ascii_eqb "{" quote) with false. change (ascii_eqb "{" "{") with true.
  cbv iota.
  destruct (json.skip m) as [|c' r]; [discriminate|].
  destruct (ascii_eqb c' "}").
  - destruct (json.skip r); [intros [= <-]; eauto | discriminate].
  - destruct (json.parse_object _ _ _) as [w rest| |] eqn:E; try discriminate.
    destruct (json.skip rest); [|discriminate]. intros [= <-].
    apply (parse_object_dict _ _ _ _ _ E).
Qed.

Lemma decoded_extract_dict raw t v :
  extract raw = Some t -> decoded t = Ok v -> exists d, v = VDict d.
Proof.
  intros Ht. unfold decoded.
  destruct (json.loads t) as [w|] eqn:Hl; [|discriminate]. intros [= <-].
  destruct (extract_shape _ _ Ht) as [-> | [m ->]].
  - vm_compute in Hl. discriminate.
  - apply (loads_braced _ _ Hl).
Qed.

(** X1: whatever [parse_llm_json] returns is a [dict]: the text it hands
    to the decoder begins with an opening brace, and such a text decodes
    to an object or not at all. *)
Theorem parse_llm_json_returns_dict raw_text v :
  parse_llm_json raw_text = Ok v -> exists d, v = VDict d.
Proof.
  rewrite parse_llm_json_extract.
  destruct (extract raw_text) as [t|] eqn:Ht; [|discriminate].
  apply (decoded_extract_dict _ _ _ Ht).
Qed.

Lemma parse_llm_json_returns_dict_witness :
  exists d, VDict [(py "S", VList [VInt 1; VStr "{"])] = VDict d.
Proof.
  apply (parse_llm_json_returns_dict (dq "Sure: {'S': [1, '{']} Done.")).
  vm_compute. reflexivity.
Defined.

(** X2: when the last closing brace of the text comes before its first
    opening brace, nothing is cut out, the decoder gets the empty text,
    and the failure is [MalformedJson], not [NoJsonObjectFound]. *)
Theorem parse_llm_json_crossed_braces raw_text :
  Text.rfind "}" raw_text <> -1 ->
  Text.rfind "}" raw_text < Text.find "{" raw_text ->
  parse_llm_json raw_text = Raise MalformedJson.
Proof.
  intros Hr Hlt. rewrite parse_llm_json_extract. unfold extract.
  pose proof (find_bounds "{" raw_text). pose proof (rfind_bounds "}" raw_text).
  destruct (Z.eqb_spec (Text.find "{" raw_text) (-1)); [lia|].
  destruct (Z.eqb_spec (Text.rfind "}" raw_text) (-1)); [lia|]. simpl.
  rewrite slice_nonneg by lia.
  replace (Z.to_nat _) with 0%nat by lia.
  reflexivity.
Qed.

Lemma parse_llm_json_crossed_braces_witness :
  parse_llm_json "no } object { yet" = Raise MalformedJson.
Proof.
  apply parse_llm_json_crossed_braces.
  - vm_compute. discriminate.
  - vm_compute. reflexivity.
Defined.

End IngestorMore.

(** ** The renderer *)

Section RendererMore.

Context `{Openpyxl}.

(** X3: a record whose coordinate is any falsy object, the number zero,
    [False], an empty list or an empty [dict] as well as [None] and the
    empty text, is skipped: the renderer does with the mapping what it
    does without that record. *)
Theorem generate_excel_skips_falsy_coordinate
    fs output_path (before after : dict) sheet_name l1 record l2 :
  truthy (get record "cell_coordinate" VNone) = false ->
  generate_excel fs output_path
    (VDict (before ++ (sheet_name, VList (l1 ++ VDict record :: l2)) :: after))
  = generate_excel fs output_path
      (VDict (before ++ (sheet_name, VList (l1 ++ l2)) :: after)).
Proof. apply generate_excel_falsy. Qed.

(** The sheets of a saved workbook, each the loop over the records of
    its item, run on a new sheet. *)
Lemma generate_excel_sheets fs output_path (items : dict) fs' :
  generate_excel fs output_path (VDict items) = (Ok tt, fs') ->
  exists sheets,
    fs' = <[output_path := sheets]> fs
    /\ Forall2 (fun kv ws =>
                  exists records names,
                    iterate (snd kv) = Ok records
                    /\ write_cells
                         {| title := avoid_duplicate_name names (fst kv);
                            cells := ∅ |} records = Ok ws)
         items sheets.
Proof.
  intros (sheets & -> & Hw)%generate_excel_saved.
  destruct (write_sheets_each _ _ _ Hw) as (sheets' & E & Hall).
  apply app_inv_head in E as <-.
  exists sheets. split; [reflexivity|].
  eapply Forall2_impl; [exact Hall|].
  intros [name values] ws (wb0 & (records & _ & Hit & Hcells)%write_sheet_ok).
  exists records, (sheetnames wb0). split; assumption.
Qed.

(** X4: the renderer writes the cells the records designate and no
    other.  In the saved workbook, sheet by sheet and in the order of the
    mapping, a cell exists exactly when a record of that sheet has a
    truthy coordinate that designates it. *)
Theorem generate_excel_writes_designated_cells fs output_path (items : dict) fs' :
  generate_excel fs output_path (VDict items) = (Ok tt, fs') ->
  exists sheets,
    fs' !! output_path = Some sheets
    /\ Forall2 (fun kv ws =>
                  exists records,
                    iterate (snd kv) = Ok records
                    /\ forall rc, is_Some (cells ws !! rc) <-> rc ∈ targets records)
         items sheets.
Proof.
  intros (sheets & -> & Hall)%generate_excel_sheets.
  exists sheets. split; [apply lookup_insert_eq|].
  eapply Forall2_impl; [exact Hall|].
  intros kv ws (records & names & Hit & Hw). exists records.
  split; [exact Hit|]. intros rc.
  rewrite (write_cells_domain _ _ _ rc Hw). cbn [cells].
  rewrite lookup_empty. split; [intros [[? [=]]|?]; assumption | auto].
Qed.

(** X5: the last record written to a cell decides it.  After the loop
    over the records of a sheet, a cell that no later record designates
    holds what the library stores for the value of its record, and the
    style of that record applied over what the cell was before; and it
    was a new cell when the sheet had none there and no earlier record
    designates it. *)
Theorem write_cells_last_record_wins worksheet l1 record l2 rc worksheet' :
  write_cells worksheet (l1 ++ VDict record :: l2) = Ok worksheet' ->
  target (VDict record) = Some rc ->
  rc ∉ targets l2 ->
  exists earlier stored,
    bind_value (get record "cell_value" VNone) = Some stored
    /\ cells worksheet' !! rc
       = Some (apply_cell_style (with_value earlier stored) record)
    /\ (rc ∉ targets l1 -> cells worksheet !! rc = None -> earlier = new_cell).
Proof.
  intros Hw Ht Hnot.
  destruct (write_cells_cell_after _ _ _ _ _ _ Hw Ht Hnot)
    as (ws1 & stored & H1 & Hv & Hcell).
  exists (cell_at ws1 rc), stored. split; [exact Hv|]. split; [exact Hcell|].
  intros Hnot1 Hnone. unfold cell_at.
  rewrite (write_cells_untouched _ _ _ _ H1 Hnot1), Hnone. reflexivity.
Qed.

Lemma write_cells_unique records worksheet worksheet' record rc :
  write_cells worksheet records = Ok worksheet' ->
  cells worksheet = ∅ ->
  NoDup (targets records) ->
  VDict record ∈ records ->
  target (VDict record) = Some rc ->
  exists stored,
    bind_value (get record "cell_value" VNone) = Some stored
    /\ cells worksheet' !! rc
       = Some (apply_cell_style (with_value new_cell stored) record).
Proof.
  intros Hw Hempty Hnodup (l1 & l2 & ->)%list_elem_of_split Ht.
  rewrite targets_app in Hnodup. unfold targets at 2 in Hnodup.
  cbn [omap list_omap] in Hnodup. rewrite Ht in Hnodup.
  fold (targets l2) in Hnodup.
  apply NoDup_app in Hnodup as (_ & Hdisj & [Hl2 _]%NoDup_cons).
  destruct (write_cells_cell_after _ _ _ _ _ _ Hw Ht Hl2)
    as (ws1 & stored & H1 & Hv & ->).
  exists stored. split; [exact Hv|].
  unfold cell_at. rewrite (write_cells_untouched _ _ _ _ H1), Hempty, lookup_empty;
    [reflexivity|].
  intros Hin. apply (Hdisj _ Hin). left.
Qed.

(** X6: on a sheet whose records designate pairwise distinct cells, the
    saved workbook holds, for every record, at the cell it designates,
    what the library stores for the value of that record, and the style
    of the record applied to a new cell. *)
Theorem generate_excel_unique_coordinates fs output_path (items : dict) fs' :
  generate_excel fs output_path (VDict items) = (Ok tt, fs') ->
  exists sheets,
    fs' !! output_path = Some sheets
    /\ Forall2 (fun kv ws =>
                  exists records,
                    iterate (snd kv) = Ok records
                    /\ (NoDup (targets records) ->
                        forall record rc,
                          VDict record ∈ records ->
                          target (VDict record) = Some rc ->
                          exists stored,
                            bind_value (get record "cell_value" VNone)
                            = Some stored
                            /\ cells ws !! rc
                               = Some (apply_cell_style
                                         (with_value new_cell stored) record)))
         items sheets.
Proof.
  intros (sheets & -> & Hall)%generate_excel_sheets.
  exists sheets. split; [apply lookup_insert_eq|].
  eapply Forall2_impl; [exact Hall|].
  intros kv ws (records & names & Hit & Hw). exists records.
  split; [exact Hit|]. intros Hnodup record rc Hin Ht.
  apply (write_cells_unique _ _ _ _ _ Hw eq_refl Hnodup Hin Ht).
Qed.

(** X7: a fill is never cleared.  When two records in a row designate
    the same cell, the first with a background colour and the second
    without one, the cell ends with the font, alignment and border of
    the second record, with what the library stores for the value of
    the second record, and with the solid fill of the first. *)
Theorem write_cells_keeps_earlier_fill worksheet l r1 r2 rc worksheet' :
  write_cells worksheet (l ++ [VDict r1; VDict r2]) = Ok worksheet' ->
  target (VDict r1) = Some rc -> target (VDict r2) = Some rc ->
  truthy (get r1 "background_color" VNone) = true ->
  truthy (get r2 "background_color" VNone) = false ->
  exists cell stored,
    cells worksheet' !! rc = Some cell
    /\ bind_value (get r2 "cell_value" VNone) = Some stored
    /\ value cell = stored
    /\ font cell = font (apply_cell_style new_cell r2)
    /\ alignment cell = alignment (apply_cell_style new_cell r2)
    /\ border cell = border (apply_cell_style new_cell r2)
    /\ fill cell
       = Some {| start_color := get r1 "background_color" VNone;
                 end_color := get r1 "background_color" VNone;
                 fill_type := "solid" |}.
Proof.
  rewrite write_cells_app.
  destruct (write_cells worksheet l) as [ws|]; [|discriminate].
  intros [Hm1 [Hm2 Hw]%write_cells_cons]%write_cells_cons H1 H2 Hb1 Hb2.
  assert (worksheet' = written (written ws (VDict r1)) (VDict r2)) as ->
    by (cbn [write_cells] in Hw; congruence).
  clear Hw.
  destruct (written_target ws r1 rc Hm1 H1) as (stored1 & _ & ->).
  destruct (written_target (put_cell ws rc
              (apply_cell_style (with_value (cell_at ws rc) stored1) r1))
              r2 rc Hm2 H2) as (stored2 & Hv2 & ->).
  unfold put_cell at 1. cbn [cells]. rewrite lookup_insert_eq.
  eexists _, stored2. split; [reflexivity|]. split; [exact Hv2|].
  unfold cell_at, put_cell. cbn [cells]. rewrite lookup_insert_eq. cbn [default].
  unfold apply_cell_style. cbn [value font alignment border fill with_value].
  rewrite Hb1, Hb2. repeat split.
Qed.

Lemma cell_at_put worksheet rc rc' c :
  rc <> rc' -> cell_at (put_cell worksheet rc c) rc' = cell_at worksheet rc'.
Proof.
  intros Hne. unfold cell_at, put_cell. cbn [cells].
  rewrite lookup_insert_ne by assumption. reflexivity.
Qed.

Lemma written_swap worksheet r1 r2 :
  (forall rc, target r1 = Some rc -> target r2 <> Some rc) ->
  written (written worksheet r1) r2 = written (written worksheet r2) r1.
Proof.
  intros Hne. unfold written.
  destruct r1 as [| | | | |?|d1]; try reflexivity;
    try (destruct r2; try reflexivity; destruct (target _); try reflexivity;
         destruct (bind_value _); reflexivity).
  destruct r2 as [| | | | |?|d2];
    try (destruct (target _); try reflexivity; destruct (bind_value _); reflexivity).
  destruct (target (VDict d1)) as [rc1|] eqn:E1; [|reflexivity].
  destruct (bind_value (get d1 _ _)) as [stored1|]; [|reflexivity].
  destruct (target (VDict d2)) as [rc2|] eqn:E2; [|reflexivity].
  destruct (bind_value (get d2 _ _)) as [stored2|]; [|reflexivity].
  assert (rc1 <> rc2) as Hrc by (intros ->; apply (Hne rc2); reflexivity).
  rewrite !cell_at_put by congruence.
  unfold put_cell. cbn [title cells]. f_equal.
  apply insert_insert_ne. congruence.
Qed.

Lemma write_cells_permutation records records' :
  records ≡ₚ records' ->
  Forall cell_mapping records ->
  NoDup (targets records) ->
  forall worksheet, write_cells worksheet records = write_cells worksheet records'.
Proof.
  induction 1 as [|r l l' Hperm IH|r1 r2 l|l l' l'' H1 IH1 H2 IH2];
    intros Hall Hnodup worksheet.
  - reflexivity.
  - apply Forall_cons in Hall as [Hr Hall].
    rewrite !write_cells_step by assumption. apply IH; [assumption|].
    unfold targets in *. cbn [omap list_omap] in Hnodup.
    destruct (target r); [apply NoDup_cons in Hnodup as [_ ?]|]; assumption.
  - apply Forall_cons in Hall as [H1 [H2 Hall]%Forall_cons].
    rewrite !write_cells_step by assumption. f_equal.
    symmetry. apply written_swap. intros rc E1 E2.
    unfold targets in Hnodup. cbn [omap list_omap] in Hnodup.
    rewrite E1, E2 in Hnodup. apply NoDup_cons in Hnodup as [Hnot _].
    apply Hnot. left.
  - rewrite IH1 by assumption. apply IH2.
    + rewrite <- H1. assumption.
    + unfold targets in *. rewrite <- H1. assumption.
Qed.

(** X8: the order of the records of a sheet does not matter when the
    loop can apply each of them, the library storing its value and
    accepting its style, and they designate pairwise distinct cells: the
    renderer gives the same result and the same file for any
    rearrangement of them. *)
Theorem generate_excel_record_order
    fs output_path (before after : dict) sheet_name records records' :
  records ≡ₚ records' ->
  Forall cell_mapping records ->
  NoDup (targets records) ->
  generate_excel fs output_path
    (VDict (before ++ (sheet_name, VList records) :: after))
  = generate_excel fs output_path
      (VDict (before ++ (sheet_name, VList records') :: after)).
Proof.
  intros Hperm Hall Hnodup. apply generate_excel_same_sheet. intros wb.
  unfold write_sheet. destruct (create_sheet wb sheet_name); [|reflexivity].
  cbn [iterate]. apply (write_cells_permutation _ _ Hperm Hall Hnodup).
Qed.

(** X9: what a sheet name may be mapped to.  After sheets that raised
    nothing, a name the library refuses makes the renderer fail before
    it looks at the value.  Under a name the library accepts, a value
    that is [None], a boolean or a number makes the renderer fail with
    [TypeError], and a text or a [dict] that is not empty makes it fail
    with [AttributeError].  In all these cases no file is written.  An
    empty text and an empty [dict] are taken for an empty list of
    records. *)
Theorem generate_excel_sheet_values
    fs output_path (before after : dict) sheet_name values wb :
  write_sheets new_workbook before = Ok wb ->
  (valid_title sheet_name = false ->
   generate_excel fs output_path
     (VDict (before ++ (sheet_name, values) :: after))
   = (Raise LibraryError, fs)) /\
  (valid_title sheet_name = true -> not_iterable values = true ->
   generate_excel fs output_path
     (VDict (before ++ (sheet_name, values) :: after))
   = (Raise TypeError, fs)) /\
  (valid_title sheet_name = true -> yields_str values = true ->
   generate_excel fs output_path
     (VDict (before ++ (sheet_name, values) :: after))
   = (Raise AttributeError, fs)) /\
  (yields_nothing values = true ->
   generate_excel fs output_path
     (VDict (before ++ (sheet_name, values) :: after))
   = generate_excel fs output_path
       (VDict (before ++ (sheet_name, VList []) :: after))).
Proof.
  intros Hb. split; [|split; [|split]].
  - intros Hn. apply generate_excel_sheet_fails with (wb := wb); [assumption|].
    unfold write_sheet, create_sheet. rewrite Hn. reflexivity.
  - intros Hn Hv. apply generate_excel_sheet_fails with (wb := wb); [assumption|].
    unfold write_sheet, create_sheet. rewrite Hn.
    destruct values; try discriminate; reflexivity.
  - intros Hn Hv. apply generate_excel_sheet_fails with (wb := wb); [assumption|].
    unfold write_sheet, create_sheet. rewrite Hn.
    destruct values as [| | | |[|c s]|l|[|[k v] d]]; try discriminate; reflexivity.
  - intros Hv. apply generate_excel_same_sheet. intros wb0.
    unfold write_sheet. destruct (create_sheet wb0 sheet_name); [|reflexivity].
    destruct values as [| | | |[|c s]|[|r l]|[|[k v] d]];
      try discriminate; reflexivity.
Qed.

End RendererMore.

(** ** Styling a cell *)

(** X10: styling a cell twice.  The font, the alignment and the border
    are those of the second record alone and the value is untouched; the
    fill is that of the second record when it has a background colour
    and what the first styling left otherwise; and styling again with
    the same record changes nothing. *)
Theorem apply_cell_style_twice (cell : Cell) (d1 d2 : dict) :
  let once := apply_cell_style cell d1 in
  let twice := apply_cell_style once d2 in
  value twice = value cell
  /\ font twice = font (apply_cell_style new_cell d2)
  /\ alignment twice = alignment (apply_cell_style new_cell d2)
  /\ border twice = border (apply_cell_style new_cell d2)
  /\ fill twice
     = (if truthy (get d2 "background_color" VNone)
        then fill (apply_cell_style new_cell d2)
        else fill once)
  /\ apply_cell_style once d1 = once.
Proof.
  cbv zeta. unfold apply_cell_style.
  cbn [value font alignment border fill].
  repeat split.
  - destruct (truthy (get d2 _ _)); reflexivity.
  - f_equal. destruct (truthy (get d1 _ _)); reflexivity.
Qed.

(** ** The main flow *)

Section MainMore.

Context `{Openpyxl}.
Variable encode : object -> str.

Lemma main_sent w prompt r w' :
  main w prompt = (r, w') ->
  (r = Raise MissingApiKey /\ w' = w) \/ sent w' = sent w ++ [prompt].
Proof.
  unfold main, call_llm.
  destruct (getenv _ (environ w)) as [[|k key]|].
  1,3: intros [= <- <-]; left; split; reflexivity.
  destruct (parse_llm_json _) as [m|e].
  - destruct (generate_excel _ _ _). intros [= <- <-]. right. reflexivity.
  - intros [= <- <-]. right. reflexivity.
Qed.

Lemma main_failed w prompt e w' :
  main w prompt = (Raise e, w') -> files w' = files w.
Proof.
  unfold main, call_llm.
  destruct (getenv _ (environ w)) as [[|k key]|].
  1,3: intros [= <- <-]; reflexivity.
  destruct (parse_llm_json _) as [m|e'].
  - unfold generate_excel. cbn [files].
    destruct (build_workbook m) as [wb|e']; [discriminate|].
    intros [= <- <-]. reflexivity.
  - intros [= <- <-]. reflexivity.
Qed.

(** X11: what [main], from the prompt on, can change.  It leaves the
    environment alone and every file but [output.xlsx]; when it fails no
    file changes at all; and it sends the model the prompt, once, unless
    the API key is missing, in which case it sends nothing. *)
Theorem main_effects w prompt r w' :
  main w prompt = (r, w') ->
  environ w' = environ w
  /\ (forall path, path <> py "output.xlsx" -> files w' !! path = files w !! path)
  /\ (forall e, r = Raise e -> files w' = files w)
  /\ ((r = Raise MissingApiKey /\ sent w' = sent w) \/ sent w' = sent w ++ [prompt]).
Proof.
  intros Hm. split; [|split; [|split]].
  - revert Hm. unfold main, call_llm.
    destruct (getenv _ (environ w)) as [[|k key]|].
    1,3: intros [= <- <-]; reflexivity.
    destruct (parse_llm_json _); [destruct (generate_excel _ _ _)|];
      intros [= <- <-]; reflexivity.
  - intros path Hpath. revert Hm. unfold main, call_llm.
    destruct (getenv _ (environ w)) as [[|k key]|].
    1,3: intros [= <- <-]; reflexivity.
    destruct (parse_llm_json _) as [m|e]; [|intros [= <- <-]; reflexivity].
    unfold generate_excel. cbn [files].
    destruct (build_workbook m) as [wb|e]; intros [= <- <-]; [|reflexivity].
    cbn [files]. apply lookup_insert_ne. intros E. apply Hpath. symmetry. exact E.
  - intros e ->. apply (main_failed _ _ _ _ Hm).
  - destruct (main_sent _ _ _ _ Hm) as [[-> ->]|Hs]; auto.
Qed.

(** X12: [main] fails with [EmptyLayout] exactly when the API key is set
    and the answer of the model parses to the empty object: no other
    falsy mapping can come out of [parse_llm_json]. *)
Theorem main_empty_layout w prompt :
  fst (main w prompt) = Raise EmptyLayout
  <-> (exists c key, getenv "GEMINI_API_KEY" (environ w) = Some (c :: key))
      /\ parse_llm_json (model w (sent w) prompt) = Ok (VDict []).
Proof.
  unfold main, call_llm.
  destruct (getenv _ (environ w)) as [[|c key]|].
  1,3: split; [intros E; vm_compute in E; discriminate
              | intros [(? & ? & [=]) _]].
  destruct (parse_llm_json _) as [m|e] eqn:Hp; rewrite parse_llm_json_extract in Hp;
    destruct (extract _) as [t|] eqn:Ht.
  - destruct (decoded_extract_dict _ _ _ Ht Hp) as [d ->].
    unfold generate_excel, build_workbook.
    destruct d as [|kv d]; cbn [truthy negb fst].
    + split; [eauto | reflexivity].
    + destruct (write_sheets new_workbook (kv :: d)) as [wb|e] eqn:Hw; cbn [fst].
      * split; [discriminate | intros [_ [=]]].
      * split; [|intros [_ [=]]]. intros [= ->].
        destruct (write_sheets_error _ _ _ Hw) as [?|[?|[?|?]]]; discriminate.
  - discriminate.
  - cbn [fst]. split; [|intros [_ [=]]]. intros [= ->].
    unfold decoded in Hp. destruct (json.loads _); discriminate.
  - cbn [fst]. split; [|intros [_ [=]]]. intros [= ->].
    vm_compute in Hp. discriminate.
Qed.

(** X13: [load_prompt] fails with [ValueError] on falsy input data, and
    otherwise returns the template of the source with the encoded data
    in the place of [input_toon]: the text before it, the encoding, the
    text after it.  So the encoding can be read back from a prompt: two
    inputs get the same prompt exactly when their encodings are the
    same. *)
Theorem load_prompt_embeds_encoding :
  (forall input_data,
     truthy input_data = false ->
     load_prompt encode input_data = Raise (ValueError "Input data is empty")) /\
  (forall input_data,
     truthy input_data = true ->
     load_prompt encode input_data
     = Ok (prompt_head ++ encode input_data ++ prompt_tail)) /\
  (forall a b prompt_a prompt_b,
     load_prompt encode a = Ok prompt_a ->
     load_prompt encode b = Ok prompt_b ->
     (prompt_a = prompt_b <-> encode a = encode b)) /\
  (forall input_data prompt,
     load_prompt encode input_data = Ok prompt ->
     encode input_data
     = take (length prompt - length prompt_head - length prompt_tail)
         (drop (length prompt_head) prompt)).
Proof.
  unfold load_prompt. split; [|split; [|split]].
  - intros d ->. reflexivity.
  - intros d ->. reflexivity.
  - intros a b pa pb.
    destruct (truthy a); [|discriminate]. destruct (truthy b); [|discriminate].
    cbn [negb]. intros Ea Eb.
    apply (f_equal (fun r => match r with Ok p => p | Raise _ => [] end)) in Ea, Eb.
    cbv beta iota in Ea, Eb. subst pa pb. split.
    + intros E. apply app_inv_head, app_inv_tail in E. exact E.
    + intros ->. reflexivity.
  - intros d p. destruct (truthy d); [|discriminate]. cbn [negb]. intros E.
    apply (f_equal (fun r => match r with Ok p => p | Raise _ => [] end)) in E.
    cbv beta iota in E. subst p.
    rewrite drop_app_length.
    replace (length (prompt_head ++ encode d ++ prompt_tail)
             - length prompt_head - length prompt_tail)%nat
      with (length (encode d)) by (rewrite !length_app; lia).
    rewrite take_app_length. reflexivity.
Qed.

(** X14: [main] as a whole calls the model at most once, and only with
    the prompt built from the input file.  Either it does not finish,
    sends nothing and writes no file (the input file is missing, is not
    JSON or holds falsy data, or the API key is missing), or the input
    file decodes to truthy data, the one prompt sent is the template
    around the encoding of that data, and a file is written only if
    [main] finishes. *)
Theorem run_main_prompts_once texts w r w' :
  run_main encode texts w = (r, w') ->
  (r <> Finished /\ sent w' = sent w /\ files w' = files w)
  \/ (exists text input_data,
        texts !! input_json_path = Some text
        /\ json.loads text = Some input_data
        /\ truthy input_data = true
        /\ sent w' = sent w ++ [prompt_head ++ encode input_data ++ prompt_tail]
        /\ (r = Finished \/ files w' = files w)).
Proof.
  unfold run_main.
  destruct (texts !! input_json_path) as [text|];
    [|intros [= <- <-]; left; repeat split; discriminate].
  destruct (json.loads text) as [input_data|] eqn:Hl;
    [|intros [= <- <-]; left; repeat split; discriminate].
  unfold load_prompt.
  destruct (truthy input_data) eqn:Ht; cbn [negb];
    [|intros [= <- <-]; left; repeat split; discriminate].
  destruct (main w _) as [[u|e] w1] eqn:Hm; intros [= <- <-].
  - right. exists text, input_data.
    destruct (main_sent _ _ _ _ Hm) as [[[=] _]|Hs]. repeat split; auto.
  - destruct (main_sent _ _ _ _ Hm) as [[_ ->]|Hs].
    + left. repeat split. discriminate.
    + right. exists text, input_data. repeat split; auto.
      right. apply (main_failed _ _ _ _ Hm).
Qed.

End MainMore.

(** ** The further properties on the sample workbook *)

Lemma generate_excel_skips_falsy_coordinate_witness :
  @generate_excel codec_workbook ∅ "output.xlsx"
    (VDict [(py "S", VList [VDict at_A1; VDict at_zero; VDict at_B2])])
  = @generate_excel codec_workbook ∅ "output.xlsx"
      (VDict [(py "S", VList [VDict at_A1; VDict at_B2])]).
Proof.
  apply (@generate_excel_skips_falsy_coordinate codec_workbook
           ∅ "output.xlsx" [] [] "S" [VDict at_A1] at_zero [VDict at_B2]).
  reflexivity.
Defined.

Lemma generate_excel_writes_designated_cells_witness :
  exists sheets,
    snd (@generate_excel codec_workbook ∅ "output.xlsx"
           (VDict [(py "S", VList [VDict at_A1; VDict valued_only; VDict at_B2])]))
      !! py "output.xlsx" = Some sheets
    /\ Forall2 (fun kv ws =>
                  exists records,
                    iterate (snd kv) = Ok records
                    /\ forall rc, is_Some (cells ws !! rc)
                                  <-> rc ∈ @targets codec_workbook records)
         [(py "S", VList [VDict at_A1; VDict valued_only; VDict at_B2])] sheets.
Proof.
  apply (@generate_excel_writes_designated_cells codec_workbook ∅ "output.xlsx").
  vm_compute. reflexivity.
Defined.

Lemma write_cells_last_record_wins_witness :
  match @write_cells codec_workbook {| title := "S"; cells := ∅ |}
          ([VDict at_A1] ++ VDict at_A1_again :: [VDict at_B2]) with
  | Ok worksheet =>
      exists earlier,
        cells worksheet !! (1, 1)
        = Some (apply_cell_style (with_value earlier (VInt 2)) at_A1_again)
  | Raise _ => False
  end.
Proof.
  destruct (@write_cells codec_workbook _ _) as [worksheet|e] eqn:Hw.
  - destruct (@write_cells_last_record_wins codec_workbook _ _ _ _ (1, 1) _ Hw)
      as (earlier & stored & Hstored & Hcell & _).
    + reflexivity.
    + vm_compute. intros Hin. inversion Hin as [|? ? ? Hin']. inversion Hin'.
    + vm_compute in Hstored. injection Hstored as <-.
      exists earlier. exact Hcell.
  - vm_compute in Hw. discriminate.
Defined.

Lemma generate_excel_unique_coordinates_witness :
  exists sheets,
    snd (@generate_excel codec_workbook ∅ "output.xlsx"
           (VDict [(py "S", VList [VDict at_A1; VDict at_B2])]))
      !! py "output.xlsx" = Some sheets
    /\ Forall2 (fun kv ws =>
                  exists records,
                    iterate (snd kv) = Ok records
                    /\ (NoDup (@targets codec_workbook records) ->
                        forall record rc,
                          VDict record ∈ records ->
                          @target codec_workbook (VDict record) = Some rc ->
                          exists stored,
                            @bind_value codec_workbook
                              (get record "cell_value" VNone) = Some stored
                            /\ cells ws !! rc
                               = Some (apply_cell_style
                                         (with_value new_cell stored) record)))
         [(py "S", VList [VDict at_A1; VDict at_B2])] sheets.
Proof.
  apply (@generate_excel_unique_coordinates codec_workbook ∅ "output.xlsx").
  vm_compute. reflexivity.
Defined.

Lemma write_cells_keeps_earlier_fill_witness :
  match @write_cells codec_workbook {| title := "S"; cells := ∅ |}
          ([VDict at_B2] ++ [VDict filled_A1; VDict at_A1_again]) with
  | Ok worksheet =>
      exists cell,
        cells worksheet !! (1, 1) = Some cell
        /\ value cell = VInt 2
        /\ font cell = font (apply_cell_style new_cell at_A1_again)
        /\ fill cell
           = Some {| start_color := VStr "FFD2BF"; end_color := VStr "FFD2BF";
                     fill_type := "solid" |}
  | Raise _ => False
  end.
Proof.
  destruct (@write_cells codec_workbook _ _) as [worksheet|e] eqn:Hw.
  - destruct (@write_cells_keeps_earlier_fill codec_workbook _ _ _ _ (1, 1) _ Hw)
      as (cell & stored & Hcell & Hstored & Hvalue & Hfont & _ & _ & Hfill);
      try reflexivity.
    vm_compute in Hstored. injection Hstored as <-.
    exists cell. repeat split; assumption.
  - vm_compute in Hw. discriminate.
Defined.

Lemma at_B2_mapping : @cell_mapping codec_workbook (VDict at_B2).
Proof.
  exists at_B2. split; [reflexivity|]. intros _.
  repeat split; vm_compute; discriminate.
Qed.

Lemma generate_excel_record_order_witness :
  @generate_excel codec_workbook ∅ "output.xlsx"
    (VDict [(py "S", VList [VDict at_A1; VDict at_B2])])
  = @generate_excel codec_workbook ∅ "output.xlsx"
      (VDict [(py "S", VList [VDict at_B2; VDict at_A1])]).
Proof.
  apply (@generate_excel_record_order codec_workbook ∅ "output.xlsx" [] [] "S").
  - apply perm_swap.
  - repeat constructor; [apply at_A1_mapping | apply at_B2_mapping].
  - vm_compute. repeat constructor.
    + intros Hin. inversion Hin as [|? ? ? Hin']; inversion Hin'.
    + intros Hin. inversion Hin.
Defined.

Lemma generate_excel_sheet_values_witness :
  @generate_excel codec_workbook old_files "output.xlsx"
    (VDict [(py "S", VList [VDict at_A1]); (py "a/b", VNone)])
  = (Raise LibraryError, old_files)
  /\ @generate_excel codec_workbook old_files "output.xlsx"
       (VDict [(py "S", VList [VDict at_A1]); (py "T", VNone)])
     = (Raise TypeError, old_files)
  /\ @generate_excel codec_workbook old_files "output.xlsx"
       (VDict [(py "S", VList [VDict at_A1]); (py "T", VStr "A1")])
     = (Raise AttributeError, old_files)
  /\ @generate_excel codec_workbook old_files "output.xlsx"
       (VDict [(py "S", VList [VDict at_A1]); (py "T", VStr [])])
     = @generate_excel codec_workbook old_files "output.xlsx"
         (VDict [(py "S", VList [VDict at_A1]); (py "T", VList [])]).
Proof.
  assert (@write_sheets codec_workbook new_workbook [(py "S", VList [VDict at_A1])]
          = Ok (new_workbook
                  ++ [put_cell {| title := "S"; cells := ∅ |} (1, 1)
                        (apply_cell_style (with_value new_cell (VInt 1)) at_A1)]))
    as Hb by (vm_compute; reflexivity).
  split; [|split; [|split]].
  - apply (proj1 (@generate_excel_sheet_values codec_workbook old_files
                    "output.xlsx" [(py "S", VList [VDict at_A1])] [] "a/b" VNone
                    _ Hb)).
    reflexivity.
  - apply (proj1 (proj2 (@generate_excel_sheet_values codec_workbook old_files
                    "output.xlsx" [(py "S", VList [VDict at_A1])] [] "T" VNone
                    _ Hb))); reflexivity.
  - apply (proj1 (proj2 (proj2 (@generate_excel_sheet_values codec_workbook
                    old_files "output.xlsx" [(py "S", VList [VDict at_A1])] [] "T"
                    (VStr "A1") _ Hb)))); reflexivity.
  - apply (proj2 (proj2 (proj2 (@generate_excel_sheet_values codec_workbook
                    old_files "output.xlsx" [(py "S", VList [VDict at_A1])] [] "T"
                    (VStr []) _ Hb)))).
    reflexivity.
Defined.

Lemma main_effects_witness :
  let after := snd (@main codec_workbook fickle_world "prompt") in
  environ after = environ fickle_world
  /\ (forall path, path <> py "output.xlsx" ->
      files after !! path = files fickle_world !! path)
  /\ sent after = [py "prompt"].
Proof.
  destruct (@main_effects codec_workbook fickle_world "prompt"
              (fst (@main codec_workbook fickle_world "prompt"))
              (snd (@main codec_workbook fickle_world "prompt")))
    as (Henv & Hfiles & _ & [[Hr _]|Hsent]).
  - apply surjective_pairing.
  - vm_compute in Hr. discriminate.
  - repeat split; assumption.
Defined.

Lemma main_empty_layout_witness :
  fst (@main codec_workbook empty_reply_world "prompt") = Raise EmptyLayout.
Proof.
  apply (@main_empty_layout codec_workbook). split.
  - eexists _, _. reflexivity.
  - vm_compute. reflexivity.
Defined.

Lemma load_prompt_embeds_encoding_witness :
  load_prompt sample_encode (VFloat "1e-400")
  = Raise (ValueError "Input data is empty")
  /\ load_prompt sample_encode (VStr "a") = Ok (prompt_head ++ py "a" ++ prompt_tail)
  /\ load_prompt sample_encode (VStr "a") <> load_prompt sample_encode (VStr "b").
Proof.
  destruct (load_prompt_embeds_encoding sample_encode)
    as (Hempty & Htemplate & Hsame & _).
  split; [|split].
  - apply Hempty. vm_compute. reflexivity.
  - apply (Htemplate (VStr "a")). reflexivity.
  - rewrite (Htemplate (VStr "a") eq_refl), (Htemplate (VStr "b") eq_refl).
    intros E.
    apply (f_equal (fun r => match r with Ok p => p | Raise _ => [] end)) in E.
    cbv beta iota in E.
    apply (Hsame (VStr "a") (VStr "b") _ _
             (Htemplate (VStr "a") eq_refl) (Htemplate (VStr "b") eq_refl)) in E.
    vm_compute in E. discriminate.
Defined.

Lemma run_main_prompts_once_witness :
  let after := snd (@run_main codec_workbook sample_encode sample_texts
                      empty_reply_world) in
  sent after = [prompt_head ++ py "statement" ++ prompt_tail]
  /\ files after = ∅.
Proof.
  destruct (@run_main_prompts_once codec_workbook sample_encode sample_texts
              empty_reply_world
              (fst (@run_main codec_workbook sample_encode sample_texts
                      empty_reply_world))
              (snd (@run_main codec_workbook sample_encode sample_texts
                      empty_reply_world)))
    as [(_ & Hs & _)|(text & input_data & Htext & Hl & _ & Hs & [Hr|Hf])].
  - apply surjective_pairing.
  - vm_compute in Hs. discriminate.
  - vm_compute in Hr. discriminate.
  - vm_compute in Htext. injection Htext as <-.
    vm_compute in Hl. injection Hl as <-.
    split; [exact Hs | exact Hf].
Defined.
